(** * msaf/run.py: the segmentation orchestration of MSAF

    A shallow embedding of [src/msaf/run.py] and the properties its
    specification states about it.

    The module drives collaborators that live in other files of the package
    ([msaf.input_output], [msaf.utils], [msaf.featextract], [msaf.jams2],
    [msaf.algorithms], the constant [msaf.minimum__frames]) and in libraries
    ([joblib], [librosa], [os], [logging]).  They are gathered in the record
    [World]; every call that crosses the module's border is written to a
    log, so that "this was never invoked" is a statement about the log.

    Times are floats in the source; here they are rationals ([Q]), which
    the orchestration only compares and moves around.  Frame indices are
    [nat], labels are [Z]. *)

From Stdlib Require Import String List ZArith QArith Qabs Bool Arith Lia.
From Stdlib Require Import Sorted.
Import ListNotations.

Local Open Scope string_scope.
Local Open Scope list_scope.

(* ===================================================================== *)
(** ** Exceptions, results and the log *)
(* ===================================================================== *)

(** The exceptions that can travel through [run.py].  Every error the module
    raises itself is a [RuntimeError] told apart by its message only. *)
Inductive exn : Type :=
| RuntimeError (msg : string)
| IndexError
| AttributeError
| SyntaxError
| CollaboratorError (what : string).

Inductive res (A : Type) : Type :=
| Ok (a : A)
| Raise (e : exn).
Arguments Ok {A} a.
Arguments Raise {A} e.

(** Feature bundle returned by [io.get_features]:
    [hpcp, mfcc, tonnetz, beats, dur, anal]. *)
Record Features : Type := mkFeatures {
  hpcp : list (list Q);
  mfcc : list (list Q);
  tonnetz : list (list Q);
  beats : list Q;
  dur : Q;
  anal : list (string * Q)
}.

(** [hpcp.shape[0]] *)
Definition shape0 (m : list (list Q)) : nat := List.length m.

(** The [config] dictionary: the four keys [run.py] reads, and the
    algorithm parameters it forwards untouched. *)
Record Config : Type := mkConfig {
  annot_beats : bool;
  framesync : bool;
  features : option Features;
  hier : bool;
  params : list (string * Q)
}.

Definition set_features (c : Config) (f : option Features) : Config :=
  mkConfig (annot_beats c) (framesync c) f (hier c) (params c).

Definition set_hier (c : Config) (h : bool) : Config :=
  mkConfig (annot_beats c) (framesync c) (features c) h (params c).

(** Arguments of [module.Segmenter(audio_file, frame_times, in_bound_idxs=,
    in_labels=, **config)]; an argument the call site leaves out is [None]. *)
Record SegArgs : Type := mkSegArgs {
  sa_audio_file : string;
  sa_frame_times : option (list Q);
  sa_in_bound_idxs : option (list nat);
  sa_in_labels : option (list Z);
  sa_config : Config
}.

(** What [run_algorithms] returns: a pair of arrays in flat mode (and on
    both short-circuits), a pair of lists of arrays in hierarchical mode. *)
Inductive estimation : Type :=
| Flat (est_times : list Q) (est_labels : list Z)
| Hierarchical (est_times : list (list Q)) (est_labels : list (list Z)).

(** [FileStruct]: the paths of one track. *)
Record FileStruct : Type := mkFileStruct {
  audio_file : string;
  features_file : string;
  ref_file : string;
  est_file : string
}.

(** The part of a JAMS file [process_track] looks at: [jam.beats], a list of
    annotation layers, each with its [data]. *)
Record BeatLayer : Type := mkBeatLayer { data : list Q }.
Record Jam : Type := mkJam { jam_beats : list BeatLayer }.

(** One entry per call that leaves [run.py]. *)
Inductive event : Type :=
| EvSeed (n : nat)
| EvWarning (msg : string)
| EvInfo (msg : string)
| EvGetFeatures (audio : string) (annot framesync_ : bool)
| EvGetTimeFrames
| EvSegmenter (alg : string) (args : SegArgs)
| EvProcessFlat (alg : string)
| EvProcessHierarchical (alg : string)
| EvReadReferences (audio : string)
| EvAlignTimes (times frames : list Q)
| EvProcessSegmentationLevel (idxs : list nat) (labels : list Z)
| EvJamsLoad (path : string)
| EvComputeAllFeatures (fs : FileStruct)
| EvSaveEstimations (path : string) (est : estimation)
                    (boundaries_id : string) (labels_id : option string)
| EvGetConfiguration
| EvComputeFeaturesForAudioFile (audio : string)
| EvLibrosaLoad (audio : string)
| EvSonifyClicks (est : estimation) (out : string)
| EvPlotOneTrack (audio : string)
| EvGetDatasetFiles (path ds_name : string).

(** ** The monad: a log of calls and a result that may be an exception *)

Definition M (A : Type) : Type := list event * res A.

Definition ret {A} (a : A) : M A := ([], Ok a).

Definition bind {A B} (m : M A) (f : A -> M B) : M B :=
  match m with
  | (l, Ok a) => let (l', r) := f a in (l ++ l', r)
  | (l, Raise e) => (l, Raise e)
  end.

Definition raise {A} (e : exn) : M A := ([], Raise e).

Definition emit (e : event) : M unit := ([e], Ok tt).

(** A call to a collaborator: logged, then its outcome. *)
Definition call {A} (e : event) (r : res A) : M A := ([e], r).

(** A pure computation that may raise (no call is logged). *)
Definition lift {A} (r : res A) : M A := ([], r).

(** [try: m  except: h] with a bare [except], which catches everything. *)
Definition try_except {A} (m : M A) (h : M A) : M A :=
  match m with
  | (l, Ok a) => (l, Ok a)
  | (l, Raise _) => let (l', r) := h in (l ++ l', r)
  end.

Definition trace {A} (m : M A) : list event := fst m.
Definition outcome {A} (m : M A) : res A := snd m.

Declare Scope run_scope.
Delimit Scope run_scope with run.
Notation "x <- c1 ;; c2" := (bind c1 (fun x => c2))
  (at level 100, c1 at next level, right associativity) : run_scope.
Notation "' pat <- c1 ;; c2" := (bind c1 (fun x => match x with pat => c2 end))
  (at level 100, pat pattern, c1 at next level, right associativity) : run_scope.
Notation "c1 ;; c2" := (bind c1 (fun _ => c2))
  (at level 100, right associativity) : run_scope.
Local Open Scope run_scope.

(* ===================================================================== *)
(** ** Collaborators *)
(* ===================================================================== *)

(** A module of [msaf.algorithms]: its [__name__], its two capability flags
    and the two entry points of its [Segmenter]. *)
Record AlgModule : Type := mkAlgModule {
  mod_name : string;
  is_boundary_type : bool;
  is_label_type : bool;
  processFlat : SegArgs -> res (list nat * list Z);
  processHierarchical : SegArgs -> res (list (list nat) * list (list Z))
}.

(** Everything [run.py] imports.  [algorithms] is the catalogue of the
    algorithm modules of the package [msaf.algorithms], each with its two
    capability flags.  For a string that names none of them,
    [not_an_algorithm] tells what [eval("msaf.algorithms." + id)] does:
    [Some e] when it raises [e] ([AttributeError] when the package has no
    such attribute, [SyntaxError] when the string is no attribute name, or
    whatever evaluating the string raises), [None] when it returns an object
    that is no algorithm and carries no capability flag (["__name__"], say).
    An attribute of the package is taken to carry both flags or none. *)
Record World : Type := mkWorld {
  minimum__frames : nat;
  algorithms : string -> option AlgModule;
  not_an_algorithm : string -> option exn;
  get_features : string -> bool -> bool -> option Features -> res Features;
  get_time_frames : Q -> list (string * Q) -> list Q;
  read_references : string -> res (list Q * list Z);
  align_times : list Q -> list Q -> res (list nat);
  process_segmentation_level :
    list nat -> list Z -> nat -> list Q -> Q -> res (list Q * list Z);
  jams2_load : string -> res Jam;
  isfile : string -> bool;
  path_exists : string -> bool;
  compute_all_features : FileStruct -> res unit;
  save_estimations :
    string -> estimation -> string -> option string -> Config -> res unit;
  get_configuration :
    string -> bool -> bool -> string -> option string -> res Config;
  new_FileStruct : string -> FileStruct;
  compute_features_for_audio_file : string -> res Features;
  librosa_load : string -> res unit;
  sonify_clicks : estimation -> string -> res unit;
  plot_one_track :
    string -> estimation -> string -> option string -> res unit;
  get_dataset_files : string -> string -> res (list FileStruct)
}.

(* ===================================================================== *)
(** ** run.py *)
(* ===================================================================== *)

Module Msg.
Definition not_found (id : string) : string :=
  ("Algorithm " ++ id ++ " can not be found in msaf!")%string.
Definition no_boundaries (id : string) : string :=
  ("Algorithm " ++ id ++ " can not identify boundaries!")%string.
Definition no_labels (id : string) : string :=
  ("Algorithm " ++ id ++ " can not label segments!")%string.
Definition too_short : string :=
  "Audio file too short, or too many few beats estimated. Returning empty estimations.".
Definition hier_needs_boundaries : string :=
  "A boundary algorithm is needed when using hierarchical segmentation.".
Definition hier_needs_same : string :=
  "The same algorithm for boundaries and labels is needed when using hierarchical segmentation.".
Definition no_references (audio : string) : string :=
  ("No references found for file: " ++ audio)%string.
Definition no_beats (ref : string) : string :=
  ("No beat information in file " ++ ref)%string.
Definition segmenting (audio : string) : string :=
  ("Segmenting " ++ audio)%string.
Definition writing (est : string) : string :=
  ("Writing results in: " ++ est)%string.
Definition sonifying (out : string) : string :=
  ("Sonifying boundaries in " ++ out ++ "...")%string.
End Msg.

(** The specification's names for the four configuration errors. *)
Definition UnknownAlgorithm (id : string) : exn :=
  RuntimeError (Msg.not_found id).
Definition CapabilityMismatch_boundaries (id : string) : exn :=
  RuntimeError (Msg.no_boundaries id).
Definition CapabilityMismatch_labels (id : string) : exn :=
  RuntimeError (Msg.no_labels id).
Definition MissingBoundaryAlgorithm : exn :=
  RuntimeError Msg.hier_needs_boundaries.
Definition IncompatibleHierarchicalAlgorithms : exn :=
  RuntimeError Msg.hier_needs_same.

(** What [eval] hands back: an algorithm module, or an object without
    capability flags. *)
Inductive attribute : Type :=
| Algorithm (module : AlgModule)
| Flagless.

Section Run.

Variable w : World.

(** [eval(algorithms.__name__ + "." + id)] *)
Definition eval_algorithms (id : string) : res attribute :=
  match algorithms w id with
  | Some module => Ok (Algorithm module)
  | None =>
      match not_an_algorithm w id with
      | Some e => Raise e
      | None => Ok Flagless
      end
  end.

(** [get_boundaries_module].  The [try] holds the [eval] only and its
    [except] catches [AttributeError] only; [module.is_boundary_type] is
    read after it, and raises [AttributeError] on an object without the
    flag. *)
Definition get_boundaries_module (boundaries_id : string)
  : res (option AlgModule) :=
  if String.eqb boundaries_id "gt" then Ok None
  else
    match eval_algorithms boundaries_id with
    | Raise AttributeError =>
        Raise (RuntimeError (Msg.not_found boundaries_id))
    | Raise e => Raise e
    | Ok Flagless => Raise AttributeError
    | Ok (Algorithm module) =>
        if negb (is_boundary_type module)
        then Raise (RuntimeError (Msg.no_boundaries boundaries_id))
        else Ok (Some module)
    end.

(** [get_labels_module], with the same [try] and the read of
    [module.is_label_type] after it. *)
Definition get_labels_module (labels_id : option string)
  : res (option AlgModule) :=
  match labels_id with
  | None => Ok None
  | Some id =>
      match eval_algorithms id with
      | Raise AttributeError => Raise (RuntimeError (Msg.not_found id))
      | Raise e => Raise e
      | Ok Flagless => Raise AttributeError
      | Ok (Algorithm module) =>
          if negb (is_label_type module)
          then Raise (RuntimeError (Msg.no_labels id))
          else Ok (Some module)
      end
  end.

(** [module.Segmenter(...)] followed by [S.processFlat()]. *)
Definition segment_flat (m : AlgModule) (args : SegArgs)
  : M (list nat * list Z) :=
  emit (EvSegmenter (mod_name m) args) ;;
  call (EvProcessFlat (mod_name m)) (processFlat m args).

(** [module.Segmenter(...)] followed by [S.processHierarchical()]. *)
Definition segment_hierarchical (m : AlgModule) (args : SegArgs)
  : M (list (list nat) * list (list Z)) :=
  emit (EvSegmenter (mod_name m) args) ;;
  call (EvProcessHierarchical (mod_name m)) (processHierarchical m args).

Definition normalize_level (idxs : list nat) (labels : list Z) (N : nat)
  (frame_times : list Q) (d : Q) : M (list Q * list Z) :=
  call (EvProcessSegmentationLevel idxs labels)
       (process_segmentation_level w idxs labels N frame_times d).

(** The loop [for level in range(len(est_idxs))] of the hierarchical
    branch; [est_labels[level]] raises [IndexError] past the end. *)
Fixpoint hier_levels (rest : list (list nat)) (level : nat)
  (est_labels : list (list Z)) (N : nat) (frame_times : list Q) (d : Q)
  : M (list (list Q) * list (list Z)) :=
  match rest with
  | [] => ret ([], [])
  | idxs :: rest' =>
      labels <- lift (match nth_error est_labels level with
                      | Some l => Ok l
                      | None => Raise IndexError
                      end) ;;
      ' (est_level_times, est_level_labels) <-
        normalize_level idxs labels N frame_times d ;;
      ' (times, cleaned) <-
        hier_levels rest' (S level) est_labels N frame_times d ;;
      ret (est_level_times :: times, est_level_labels :: cleaned)
  end.

(** [a.__name__ == b.__name__] *)
Definition same_name (a b : AlgModule) : bool :=
  String.eqb (mod_name a) (mod_name b).

(** "Identify segment boundaries": the boundary algorithm seeded with
    [in_labels=[]], or the references aligned to [frame_times[:-1]].  [None]
    is the early [return [], []] of the bare [except] clause. *)
Definition identify_boundaries (audio : string) (config : Config)
  (bounds_module : option AlgModule) (frame_times : list Q)
  : M (option (list nat * list Z)) :=
  match bounds_module with
  | Some bm =>
      r <- segment_flat bm
             (mkSegArgs audio (Some frame_times) None (Some []) config) ;;
      ret (Some r)
  | None =>
      try_except
        (' (est_times, est_labels) <-
           call (EvReadReferences audio) (read_references w audio) ;;
         est_idxs <-
           call (EvAlignTimes est_times (removelast frame_times))
                (align_times w est_times (removelast frame_times)) ;;
         ret (Some (est_idxs, est_labels)))
        (emit (EvWarning (Msg.no_references audio)) ;; ret None)
  end.

(** "Label segments" *)
Definition label_segments (audio : string) (config : Config)
  (labels_module : option AlgModule) (est_idxs : list nat)
  (est_labels : list Z) : M (list Z) :=
  match labels_module with
  | Some lm =>
      if Nat.eqb (List.length est_idxs) 2 then ret [0%Z]
      else
        r <- segment_flat lm
               (mkSegArgs audio None (Some est_idxs) None config) ;;
        ret (snd r)
  | None => ret est_labels
  end.

(** "Different boundary and label algorithms": the [else] branch of the
    flat case. *)
Definition split_segmentation (audio : string) (config : Config)
  (bounds_module labels_module : option AlgModule) (frame_times : list Q)
  : M (option (list nat * list Z)) :=
  b <- identify_boundaries audio config bounds_module frame_times ;;
  match b with
  | None => ret None
  | Some (est_idxs, est_labels) =>
      est_labels' <-
        label_segments audio config labels_module est_idxs est_labels ;;
      ret (Some (est_idxs, est_labels'))
  end.

(** The flat branch up to, and without, the final normalisation: the test
    [bounds_module is not None and labels_module is not None and
    bounds_module.__name__ == labels_module.__name__] and its two arms. *)
Definition flat_raw (audio : string) (config : Config)
  (bounds_module labels_module : option AlgModule) (frame_times : list Q)
  : M (option (list nat * list Z)) :=
  match bounds_module, labels_module with
  | Some bm, Some lm =>
      if same_name bm lm then
        r <- segment_flat bm
               (mkSegArgs audio (Some frame_times) None None config) ;;
        ret (Some r)
      else
        split_segmentation audio config bounds_module labels_module
                           frame_times
  | _, _ =>
      split_segmentation audio config bounds_module labels_module frame_times
  end.

(** [run_algorithms] *)
Definition run_algorithms (audio : string) (boundaries_id : string)
  (labels_id : option string) (config : Config) : M estimation :=
  f <- call (EvGetFeatures audio (annot_beats config) (framesync config))
            (get_features w audio (annot_beats config) (framesync config)
                          (features config)) ;;
  if (shape0 (hpcp f) <=? minimum__frames w)%nat then
    emit (EvWarning Msg.too_short) ;;
    ret (Flat [0%Q; dur f] [0%Z])
  else
    bounds_module <- lift (get_boundaries_module boundaries_id) ;;
    labels_module <- lift (get_labels_module labels_id) ;;
    frame_times <-
      (if framesync config
       then call EvGetTimeFrames (Ok (get_time_frames w (dur f) (anal f)))
       else ret (beats f)) ;;
    if hier config then
      match bounds_module with
      | None => raise (RuntimeError Msg.hier_needs_boundaries)
      | Some bm =>
          if match labels_module with
             | Some lm => negb (same_name bm lm)
             | None => false
             end
          then raise (RuntimeError Msg.hier_needs_same)
          else
            ' (est_idxs, est_labels) <-
              segment_hierarchical bm
                (mkSegArgs audio (Some frame_times) None None config) ;;
            ' (est_times, cleaned_est_labels) <-
              hier_levels est_idxs 0 est_labels (shape0 (hpcp f))
                          frame_times (dur f) ;;
            ret (Hierarchical est_times cleaned_est_labels)
      end
    else
      raw <- flat_raw audio config bounds_module labels_module frame_times ;;
      match raw with
      | None => ret (Flat [] [])
      | Some (est_idxs, est_labels) =>
          ' (est_times, est_labels') <-
            normalize_level est_idxs est_labels (shape0 (hpcp f))
                            frame_times (dur f) ;;
          ret (Flat est_times est_labels')
      end.

(** [process_track].  [None] is the bare [return] of the beat check. *)
Definition process_track (file_struct : FileStruct) (boundaries_id : string)
  (labels_id : option string) (config : Config) : M (option estimation) :=
  proceed <-
    (if annot_beats config then
       jam <- call (EvJamsLoad (ref_file file_struct))
                   (jams2_load w (ref_file file_struct)) ;;
       if (0 <? List.length (jam_beats jam))%nat
          && match nth_error (jam_beats jam) 0 with
             | Some layer => (0 <? List.length (data layer))%nat
             | None => false
             end
       then ret true
       else
         emit (EvWarning (Msg.no_beats (ref_file file_struct))) ;;
         ret false
     else ret true) ;;
  if negb proceed then ret None
  else
    emit (EvInfo (Msg.segmenting (audio_file file_struct))) ;;
    (if negb (isfile w (features_file file_struct))
     then call (EvComputeAllFeatures file_struct)
               (compute_all_features w file_struct)
     else ret tt) ;;
    est <- run_algorithms (audio_file file_struct) boundaries_id labels_id
                          config ;;
    emit (EvInfo (Msg.writing (est_file file_struct))) ;;
    call (EvSaveEstimations (est_file file_struct) est boundaries_id labels_id)
         (save_estimations w (est_file file_struct) est boundaries_id
                           labels_id config) ;;
    ret (Some est).

(** [joblib.Parallel(n_jobs=n_jobs)(jobs)], taken as joblib runs it with one
    worker: the jobs run in order in the calling process, the results come
    back in the order of the jobs, and an exception raised by a job leaves
    [Parallel] as it is.  [n_jobs] is carried and not used: with more
    workers joblib runs the jobs in other processes, in an order of effects
    that this log does not describe; what is proved of a collection below
    is proved of the jobs run in order. *)
Fixpoint Parallel {A} (n_jobs : nat) (jobs : list (M A)) : M (list A) :=
  match jobs with
  | [] => ret []
  | job :: jobs' =>
      a <- job ;;
      rest <- Parallel n_jobs jobs' ;;
      ret (a :: rest)
  end.

(** What [process] returns: one estimation in single file mode, the list
    of what [process_track] returned for each track in collection mode. *)
Inductive process_result : Type :=
| SingleFile (est : estimation)
| Collection (results : list (option estimation)).

(** [process] *)
Definition process (in_path : string) (annot_beats_ : bool) (feature : string)
  (ds_name : string) (framesync_ : bool) (boundaries_id : string)
  (labels_id : option string) (hier_ : bool) (sonify_bounds plot : bool)
  (n_jobs : nat) (config : option Config) (out_bounds : string)
  : M process_result :=
  emit (EvSeed 123) ;;
  config <-
    match config with
    | None =>
        c <- call EvGetConfiguration
                  (get_configuration w feature annot_beats_ framesync_
                                     boundaries_id labels_id) ;;
        ret (set_hier (set_features c None) hier_)
    | Some c => ret c
    end ;;
  if isfile w in_path then
    let file_struct := new_FileStruct w in_path in
    feats <-
      (if path_exists w (features_file file_struct)
       then call (EvGetFeatures in_path annot_beats_ framesync_)
                 (get_features w in_path annot_beats_ framesync_ None)
       else call (EvComputeFeaturesForAudioFile in_path)
                 (compute_features_for_audio_file w in_path)) ;;
    let config := set_hier (set_features config (Some feats)) hier_ in
    est <- run_algorithms in_path boundaries_id labels_id config ;;
    (if sonify_bounds then
       emit (EvInfo (Msg.sonifying out_bounds)) ;;
       call (EvLibrosaLoad in_path) (librosa_load w in_path) ;;
       call (EvSonifyClicks est out_bounds) (sonify_clicks w est out_bounds)
     else ret tt) ;;
    (if plot then
       call (EvPlotOneTrack in_path)
            (plot_one_track w in_path est boundaries_id labels_id)
     else ret tt) ;;
    ret (SingleFile est)
  else
    file_structs <- call (EvGetDatasetFiles in_path ds_name)
                         (get_dataset_files w in_path ds_name) ;;
    results <- Parallel n_jobs
                 (map (fun file_struct =>
                         process_track file_struct boundaries_id labels_id
                                       config)
                      file_structs) ;;
    ret (Collection results).

End Run.

(* ===================================================================== *)
(** ** The normaliser, from the specification *)
(* ===================================================================== *)

Module Normalizer.

(** Modelled from the spec: "out-of-range indices (beyond
    total_frame_count) are clamped to the last valid frame". *)
Definition clamp (total_frame_count : nat) (i : nat) : nat :=
  Nat.min i (total_frame_count - 1).

(** Modelled from the spec: "drops duplicate boundaries at the same frame
    index"; the first boundary at a frame index stays, later ones at that
    index go. *)
Fixpoint drop_duplicates (seen : list nat) (idxs : list nat) : list nat :=
  match idxs with
  | [] => []
  | i :: rest =>
      if existsb (Nat.eqb i) seen then drop_duplicates seen rest
      else i :: drop_duplicates (i :: seen) rest
  end.

(** Modelled from the spec: "Frame indices are translated to times via
    frame_to_time_map"; the map is the array of frame times, and indexing it
    past its end raises. *)
Fixpoint to_times (frame_to_time_map : list Q) (idxs : list nat)
  : res (list Q) :=
  match idxs with
  | [] => Ok []
  | i :: rest =>
      match nth_error frame_to_time_map i with
      | None => Raise IndexError
      | Some t =>
          match to_times frame_to_time_map rest with
          | Ok ts => Ok (t :: ts)
          | Raise e => Raise e
          end
      end
  end.

(** Modelled from the spec: "always starts at 0.0 ..., inserting these
    endpoints if the raw algorithm output omitted them". *)
Definition with_start (ts : list Q) : list Q :=
  match ts with
  | t :: _ => if Qeq_bool t 0 then ts else 0%Q :: ts
  | [] => [0%Q]
  end.

(** Modelled from the spec: "... and ends at track_duration". *)
Definition with_end (track_duration : Q) (ts : list Q) : list Q :=
  match ts with
  | [] => [track_duration]
  | _ :: _ =>
      if Qeq_bool (last ts 0%Q) track_duration then ts
      else ts ++ [track_duration]
  end.

(** Modelled from the spec: "Label sequence length is always
    len(boundary_times) - 1; if raw output yields a mismatched count ... the
    normalizer assigns a single default label value (0)". *)
Definition fit_labels (raw_labels : list Z) (boundary_times : list Q)
  : list Z :=
  if Nat.eqb (List.length raw_labels) (List.length boundary_times - 1)
  then raw_labels
  else repeat 0%Z (List.length boundary_times - 1).

(** Modelled from the spec: [utils.process_segmentation_level], the
    BoundaryLabelNormalizer of section 4.2, is not among the sources.
    [normalize(raw_boundary_frame_indices, raw_labels, total_frame_count,
    frame_to_time_map, track_duration) -> (boundary_times, labels)]. *)
Definition normalize (raw_boundary_frame_indices : list nat)
  (raw_labels : list Z) (total_frame_count : nat)
  (frame_to_time_map : list Q) (track_duration : Q)
  : res (list Q * list Z) :=
  let idxs :=
    drop_duplicates []
      (map (clamp total_frame_count) raw_boundary_frame_indices) in
  match to_times frame_to_time_map idxs with
  | Raise e => Raise e
  | Ok ts =>
      let boundary_times := with_end track_duration (with_start ts) in
      Ok (boundary_times, fit_labels raw_labels boundary_times)
  end.

End Normalizer.

(* ===================================================================== *)
(** ** Vocabulary of the properties *)
(* ===================================================================== *)

(** The frame times [run_algorithms] works with: [beats], or the uniform
    grid when [config["framesync"]] is set. *)
Definition frame_grid (w : World) (f : Features) (config : Config) : list Q :=
  if framesync config then get_time_frames w (dur f) (anal f) else beats f.

(** The call that computes the uniform grid, when there is one. *)
Definition grid_events (config : Config) : list event :=
  if framesync config then [EvGetTimeFrames] else [].

Definition features_event (audio : string) (config : Config) : event :=
  EvGetFeatures audio (annot_beats config) (framesync config).

(** What is left of [run_algorithms] once the features [f] are loaded, both
    modules are resolved and the frame times are known: the text of the
    source from "Segment audio based on type of segmentation" on. *)
Definition segmentation (w : World) (audio : string) (config : Config)
  (f : Features) (bounds_module labels_module : option AlgModule)
  : M estimation :=
  let frame_times := frame_grid w f config in
  if hier config then
    match bounds_module with
    | None => raise (RuntimeError Msg.hier_needs_boundaries)
    | Some bm =>
        if match labels_module with
           | Some lm => negb (same_name bm lm)
           | None => false
           end
        then raise (RuntimeError Msg.hier_needs_same)
        else
          ' (est_idxs, est_labels) <-
            segment_hierarchical bm
              (mkSegArgs audio (Some frame_times) None None config) ;;
          ' (est_times, cleaned_est_labels) <-
            hier_levels w est_idxs 0 est_labels (shape0 (hpcp f))
                        frame_times (dur f) ;;
          ret (Hierarchical est_times cleaned_est_labels)
    end
  else
    raw <- flat_raw w audio config bounds_module labels_module frame_times ;;
    match raw with
    | None => ret (Flat [] [])
    | Some (est_idxs, est_labels) =>
        ' (est_times, est_labels') <-
          normalize_level w est_idxs est_labels (shape0 (hpcp f))
                          frame_times (dur f) ;;
        ret (Flat est_times est_labels')
    end.

(** A configuration error of the request: the boundary identifier does not
    resolve, or it does and the label identifier does not. *)
Definition configuration_error (w : World) (boundaries_id : string)
  (labels_id : option string) (e : exn) : Prop :=
  get_boundaries_module w boundaries_id = Raise e \/
  (exists bm, get_boundaries_module w boundaries_id = Ok bm /\
              get_labels_module w labels_id = Raise e).

(** The configuration [process] works with: the one it is given, or the
    one [io.get_configuration] builds, with its [features] and [hier] keys
    set. *)
Definition effective_config (w : World) (config : option Config)
  (feature : string) (annot_beats_ framesync_ : bool) (boundaries_id : string)
  (labels_id : option string) (hier_ : bool) : res Config :=
  match config with
  | Some c => Ok c
  | None =>
      match get_configuration w feature annot_beats_ framesync_
                              boundaries_id labels_id with
      | Ok c => Ok (set_hier (set_features c None) hier_)
      | Raise e => Raise e
      end
  end.

Definition config_events (config : option Config) : list event :=
  match config with
  | Some _ => []
  | None => [EvGetConfiguration]
  end.

Definition starts_at_zero (ts : list Q) : Prop :=
  match ts with
  | t :: _ => t == 0
  | [] => False
  end.

Definition ends_at (d : Q) (ts : list Q) : Prop :=
  ts <> [] /\ last ts 0 == d.

Definition strictly_ascending (ts : list Q) : Prop := StronglySorted Qlt ts.

Definition nondecreasing (idxs : list nat) : Prop := StronglySorted le idxs.

(** One level of a result in canonical form: from 0.0 to the duration, one
    label per segment. *)
Definition canonical (d : Q) (level : list Q * list Z) : Prop :=
  starts_at_zero (fst level) /\ ends_at d (fst level) /\
  List.length (fst level) = S (List.length (snd level)).

(** The levels of a result: the one of a flat result, or those of a
    hierarchical one. *)
Definition levels (r : estimation) : list (list Q * list Z) :=
  match r with
  | Flat ts ls => [(ts, ls)]
  | Hierarchical tss lss => combine tss lss
  end.

Definition level_counts_agree (r : estimation) : Prop :=
  match r with
  | Flat _ _ => True
  | Hierarchical tss lss => List.length tss = List.length lss
  end.

(** Calls into a registered algorithm. *)
Definition algorithm_event (e : event) : bool :=
  match e with
  | EvSegmenter _ _ | EvProcessFlat _ | EvProcessHierarchical _ => true
  | _ => false
  end.

(** Calls into the algorithm called [name]. *)
Definition invokes (name : string) (e : event) : bool :=
  match e with
  | EvSegmenter a _ | EvProcessFlat a | EvProcessHierarchical a =>
      String.eqb a name
  | _ => false
  end.

Definition persists (e : event) : bool :=
  match e with
  | EvSaveEstimations _ _ _ _ => true
  | _ => false
  end.

(** A regular call, by its log: the track has a positive duration, the
    frame times are strictly ascending within the track, and the boundary
    indices handed to the normaliser in the call are in ascending order. *)
Record regular (w : World) (f : Features) (config : Config) (l : list event)
  : Prop := {
  reg_dur : 0 < dur f;
  reg_grid_sorted : strictly_ascending (frame_grid w f config);
  reg_grid_range :
    Forall (fun t => 0 <= t /\ t <= dur f) (frame_grid w f config);
  reg_indices : forall idxs ls,
    In (EvProcessSegmentationLevel idxs ls) l -> nondecreasing idxs
}.

(** Reading the references of the track raised, or aligning them to the
    frame times without the last did. *)
Definition references_failed (w : World) (audio : string) (grid : list Q)
  : Prop :=
  (exists e, read_references w audio = Raise e) \/
  (exists ts ls e, read_references w audio = Ok (ts, ls) /\
                   align_times w ts (removelast grid) = Raise e).

(** Each time is below the next one. *)
Fixpoint adjacent_ascending (ts : list Q) : bool :=
  match ts with
  | [] => true
  | t :: rest =>
      match rest with
      | [] => true
      | u :: _ => negb (Qle_bool u t) && adjacent_ascending rest
      end
  end.

(** No beat layer of the reference file carries a datum. *)
Definition no_beat_datum (jam : Jam) : Prop :=
  Forall (fun layer => data layer = []) (jam_beats jam).

(* ===================================================================== *)
(** ** Concrete tracks and collaborators *)
(* ===================================================================== *)

Module Examples.

Local Open Scope Q_scope.

(** Nearest-frame alignment, the way [io.align_times] is described: each
    time goes to the index of the closest frame time. *)
Fixpoint nearest_from (t : Q) (frames : list Q) (i best : nat) (dist : Q)
  : nat :=
  match frames with
  | [] => best
  | f :: rest =>
      if Qle_bool dist (Qabs (f - t))
      then nearest_from t rest (S i) best dist
      else nearest_from t rest (S i) i (Qabs (f - t))
  end.

Definition nearest (frames : list Q) (t : Q) : nat :=
  match frames with
  | [] => 0%nat
  | f :: rest => nearest_from t rest 1 0 (Qabs (f - t))
  end.

(** Beat times of a 180 second track; the last beat falls on the end of the
    track and the grid is closed by the duration. *)
Definition beat_grid : list Q :=
  [0; 20; 40; 60; 80; 95; 110; 125; 140; 160; 180; 180].

(** The same track with beats that stay inside it. *)
Definition inner_grid : list Q :=
  [0; 20; 40; 60; 80; 95; 110; 125; 140; 160; 170; 180].

Definition long_track (grid : list Q) : Features :=
  mkFeatures (repeat [1] 11) [] [] grid 180 [].

Definition short_track : Features :=
  mkFeatures (repeat [1] 3) [] [] [0; 1; 2; 3] 3 [].

(** [foote] finds boundaries only and hands back the placeholder labels. *)
Definition foote : AlgModule :=
  mkAlgModule "msaf.algorithms.foote" true false
    (fun _ => Ok ([0; 5; 10]%nat, [-1; -1]%Z))
    (fun _ => Raise (CollaboratorError "NotImplementedError")).

(** [fmc2d] labels the segments it is given. *)
Definition fmc2d : AlgModule :=
  mkAlgModule "msaf.algorithms.fmc2d" false true
    (fun args =>
       match sa_in_bound_idxs args with
       | Some idxs => Ok (idxs, repeat 1%Z (List.length idxs - 1))
       | None => Raise (CollaboratorError "AssertionError")
       end)
    (fun _ => Raise (CollaboratorError "NotImplementedError")).

(** [scluster] does both; on this track it finds a single segment. *)
Definition scluster : AlgModule :=
  mkAlgModule "msaf.algorithms.scluster" true true
    (fun _ => Ok ([0; 10]%nat, [7]%Z))
    (fun _ => Ok ([[0; 10]; [0; 5; 10]]%nat, [[0]; [0; 1]]%Z)).

Definition catalog (id : string) : option AlgModule :=
  if String.eqb id "foote" then Some foote
  else if String.eqb id "fmc2d" then Some fmc2d
  else if String.eqb id "scluster" then Some scluster
  else None.

(** What [eval] does on the other strings: ["__name__"] is the name of the
    package, a string without capability flags; ["2step"] and the empty
    string are no attribute names; nothing else is an attribute of the
    package. *)
Definition strays (id : string) : option exn :=
  if String.eqb id "__name__" then None
  else if String.eqb id "2step" then Some SyntaxError
  else if String.eqb id "" then Some SyntaxError
  else Some AttributeError.

Definition paths (audio : string) : FileStruct :=
  mkFileStruct audio (audio ++ ".features.json")%string
               (audio ++ ".jams")%string (audio ++ ".estimation.json")%string.

(** A world made of the collaborators above.  What varies from one example
    to the next is passed in: the threshold, the features and references
    and beat annotations of each track, and the tracks of the collection.
    Every path but ["dataset"] is a file. *)
Definition world (threshold : nat) (feats : string -> res Features)
  (refs : string -> res (list Q * list Z)) (jams : string -> res Jam)
  (tracks : list string) : World :=
  mkWorld threshold catalog strays
    (fun audio _ _ pre =>
       match pre with
       | Some f => Ok f
       | None => feats audio
       end)
    (fun d _ => [0; d])
    refs
    (fun times frames => Ok (map (nearest frames) times))
    Normalizer.normalize
    jams
    (fun path => negb (String.eqb path "dataset"))
    (fun _ => true)
    (fun _ => Ok tt)
    (fun _ _ _ _ _ => Ok tt)
    (fun _ ab fsync _ _ => Ok (mkConfig ab fsync None false []))
    paths
    feats
    (fun _ => Ok tt)
    (fun _ _ => Ok tt)
    (fun _ _ _ _ => Ok tt)
    (fun _ _ => Ok (map paths tracks)).

Definition flat_config : Config := mkConfig false false None false [].
Definition hier_config : Config := mkConfig false false None true [].
Definition beats_config : Config := mkConfig true false None false [].

Definition no_refs (audio : string) : res (list Q * list Z) :=
  Raise (CollaboratorError "IOError").

Definition no_jams (path : string) : res Jam :=
  Raise (CollaboratorError "IOError").

(** The references of the 180 second track: four boundaries and the three
    section labels between them. *)
Definition refs_180 (audio : string) : res (list Q * list Z) :=
  Ok ([0; 40; 95; 180], [1; 2; 1]%Z).

(** A collection in which the features of ["broken.mp3"] cannot be read. *)
Definition feats_of (audio : string) : res Features :=
  if String.eqb audio "broken.mp3"
  then Raise (CollaboratorError "IOError")
  else Ok (long_track beat_grid).

(** Reference files: ["nobeats.mp3.jams"] has one beat layer and it is
    empty. *)
Definition jams_of (path : string) : res Jam :=
  if String.eqb path "nobeats.mp3.jams"
  then Ok (mkJam [mkBeatLayer []])
  else Ok (mkJam [mkBeatLayer [0; 1; 2]]).

End Examples.

(** Tracks and algorithms that do not behave. *)
Module Irregular.

Local Open Scope Q_scope.

(** A boundary algorithm that returns its indices from the end. *)
Definition backwards : AlgModule :=
  mkAlgModule "msaf.algorithms.backwards" true false
    (fun _ => Ok ([10; 5; 0]%nat, [-1; -1]%Z))
    (fun _ => Raise (CollaboratorError "NotImplementedError")).

(** A boundary algorithm that finds boundaries on the first frames. *)
Definition early : AlgModule :=
  mkAlgModule "msaf.algorithms.early" true false
    (fun _ => Ok ([0; 1; 2; 10]%nat, [-1; -1; -1]%Z))
    (fun _ => Raise (CollaboratorError "NotImplementedError")).

Definition catalog (id : string) : option AlgModule :=
  if String.eqb id "backwards" then Some backwards
  else if String.eqb id "early" then Some early
  else Examples.catalog id.

(** A beat tracker that reports the same beat twice. *)
Definition repeated_grid : list Q :=
  [0; 20; 20; 60; 80; 95; 110; 125; 140; 160; 170; 180].

(** Beat times that run past the 180 seconds of the track. *)
Definition late_grid : list Q :=
  [0; 20; 40; 60; 80; 95; 110; 125; 140; 160; 185; 190].

(** A file without audio: no frame, no beat, no duration. *)
Definition empty_track : Features := mkFeatures [] [] [] [] 0 [].

(** As [Examples.world], with the catalogue above. *)
Definition world (feats : Features) (refs : string -> res (list Q * list Z))
  : World :=
  mkWorld 10 catalog Examples.strays
    (fun audio _ _ pre =>
       match pre with
       | Some f => Ok f
       | None => Ok feats
       end)
    (fun d _ => [0; d])
    refs
    (fun times frames => Ok (map (Examples.nearest frames) times))
    Normalizer.normalize
    Examples.no_jams
    (fun path => negb (String.eqb path "dataset"))
    (fun _ => true)
    (fun _ => Ok tt)
    (fun _ _ _ _ _ => Ok tt)
    (fun _ ab fsync _ _ => Ok (mkConfig ab fsync None false []))
    Examples.paths
    (fun _ => Ok feats)
    (fun _ => Ok tt)
    (fun _ _ => Ok tt)
    (fun _ _ _ _ => Ok tt)
    (fun _ _ => Ok []).

End Irregular.

(* ===================================================================== *)
(** ** Kinds of calls, and more tracks *)
(* ===================================================================== *)

(** The calls [run_algorithms] can make. *)
Definition orchestration_event (e : event) : bool :=
  match e with
  | EvGetFeatures _ _ _ | EvWarning _ | EvGetTimeFrames
  | EvSegmenter _ _ | EvProcessFlat _ | EvProcessHierarchical _
  | EvReadReferences _ | EvAlignTimes _ _
  | EvProcessSegmentationLevel _ _ => true
  | _ => false
  end.

(** Reading the reference annotation and aligning it. *)
Definition reference_event (e : event) : bool :=
  match e with
  | EvReadReferences _ | EvAlignTimes _ _ => true
  | _ => false
  end.

Definition flat_entry (e : event) : bool :=
  match e with
  | EvProcessFlat _ => true
  | _ => false
  end.

Definition hierarchical_entry (e : event) : bool :=
  match e with
  | EvProcessHierarchical _ => true
  | _ => false
  end.

(** What only the per-track pipeline of a collection does. *)
Definition collection_event (e : event) : bool :=
  match e with
  | EvSaveEstimations _ _ _ _ | EvGetDatasetFiles _ _ | EvJamsLoad _
  | EvComputeAllFeatures _ => true
  | _ => false
  end.

(** What only single file mode does. *)
Definition single_file_event (e : event) : bool :=
  match e with
  | EvComputeFeaturesForAudioFile _ | EvLibrosaLoad _ | EvSonifyClicks _ _
  | EvPlotOneTrack _ => true
  | _ => false
  end.

(** The calls [process_track] can make, [run_algorithms] included. *)
Definition track_event (e : event) : bool :=
  match e with
  | EvJamsLoad _ | EvInfo _ | EvComputeAllFeatures _
  | EvSaveEstimations _ _ _ _ => true
  | _ => orchestration_event e
  end.

(** The end of the flat branch: what the normaliser answers for the
    indices and labels it is handed, as the result of the call. *)
Definition normalised (w : World) (f : Features) (config : Config)
  (idxs : list nat) (ls : list Z) : res estimation :=
  match process_segmentation_level w idxs ls (shape0 (hpcp f))
                                   (frame_grid w f config) (dur f) with
  | Ok (est_times, est_labels) => Ok (Flat est_times est_labels)
  | Raise e => Raise e
  end.

(** The beat check of [process_track] lets the track through: beats are not
    asked for, or the reference file loads and its first beat layer holds a
    datum. *)
Definition beat_check_passes (w : World) (fs : FileStruct) (config : Config)
  : Prop :=
  annot_beats config = true ->
  exists jam layer rest,
    jams2_load w (ref_file fs) = Ok jam /\
    jam_beats jam = layer :: rest /\ data layer <> [].

(** What a passed beat check leaves in the log. *)
Definition beat_check_log (fs : FileStruct) (config : Config) : list event :=
  if annot_beats config then [EvJamsLoad (ref_file fs)] else [].

(** The extraction [process_track] triggers when the features file is
    missing. *)
Definition extraction_log (w : World) (fs : FileStruct) : list event :=
  if isfile w (features_file fs) then [] else [EvComputeAllFeatures fs].

(** What [process_track] does once the beat check has let the track
    through: the text of the source from "Segmenting" on. *)
Definition track_body (w : World) (file_struct : FileStruct)
  (boundaries_id : string) (labels_id : option string) (config : Config)
  : M (option estimation) :=
  emit (EvInfo (Msg.segmenting (audio_file file_struct))) ;;
  (if negb (isfile w (features_file file_struct))
   then call (EvComputeAllFeatures file_struct)
             (compute_all_features w file_struct)
   else ret tt) ;;
  est <- run_algorithms w (audio_file file_struct) boundaries_id labels_id
                        config ;;
  emit (EvInfo (Msg.writing (est_file file_struct))) ;;
  call (EvSaveEstimations (est_file file_struct) est boundaries_id labels_id)
       (save_estimations w (est_file file_struct) est boundaries_id
                         labels_id config) ;;
  ret (Some est).

Module MoreExamples.

Local Open Scope Q_scope.

(** An algorithm whose hierarchical entry point returns two levels of
    boundaries and one level of labels. *)
Definition uneven : AlgModule :=
  mkAlgModule "msaf.algorithms.uneven" true true
    (fun _ => Ok ([0; 5; 10]%nat, [0; 1]%Z))
    (fun _ => Ok ([[0; 10]; [0; 5; 10]]%nat, [[0]]%Z)).

(** A labelling algorithm that moves the boundaries it is given. *)
Definition relabel : AlgModule :=
  mkAlgModule "msaf.algorithms.relabel" false true
    (fun _ => Ok ([0; 3; 6; 10]%nat, [4; 5]%Z))
    (fun _ => Raise (CollaboratorError "NotImplementedError")).

(** A module registered under the name of the sentinel. *)
Definition catalog (id : string) : option AlgModule :=
  if String.eqb id "uneven" then Some uneven
  else if String.eqb id "relabel" then Some relabel
  else if String.eqb id "gt" then Some Examples.scluster
  else Examples.catalog id.

(** As [Examples.world], with the catalogue above and the alignment passed
    in. *)
Definition world (align : list Q -> list Q -> res (list nat))
  (refs : string -> res (list Q * list Z)) (jams : string -> res Jam)
  (tracks : list string) : World :=
  mkWorld 10 catalog Examples.strays
    (fun audio _ _ pre =>
       match pre with
       | Some f => Ok f
       | None => Ok (Examples.long_track Examples.inner_grid)
       end)
    (fun d _ => [0; d])
    refs
    align
    Normalizer.normalize
    jams
    (fun path => negb (String.eqb path "dataset"))
    (fun _ => true)
    (fun _ => Ok tt)
    (fun _ _ _ _ _ => Ok tt)
    (fun _ ab fsync _ _ => Ok (mkConfig ab fsync None false []))
    Examples.paths
    (fun _ => Ok (Examples.long_track Examples.inner_grid))
    (fun _ => Ok tt)
    (fun _ _ => Ok tt)
    (fun _ _ _ _ => Ok tt)
    (fun _ _ => Ok (map Examples.paths tracks)).

Definition nearest_align (times frames : list Q) : res (list nat) :=
  Ok (map (Examples.nearest frames) times).

Definition failing_align (times frames : list Q) : res (list nat) :=
  Raise (CollaboratorError "ValueError").

(** A reference file whose first beat layer is empty and whose second one
    holds the beats. *)
Definition jams_second_layer (path : string) : res Jam :=
  Ok (mkJam [mkBeatLayer []; mkBeatLayer [0; 1; 2]]).

Definition jams_with_beats (path : string) : res Jam :=
  Ok (mkJam [mkBeatLayer [0; 1; 2]]).

End MoreExamples.

(* ===================================================================== *)
(** ** The monad's equations *)
(* ===================================================================== *)

Lemma bind_Ok {A B} (m : M A) (f : A -> M B) l a :
  m = (l, Ok a) -> bind m f = (l ++ trace (f a), outcome (f a)).
Proof.
  intros ->. unfold bind, trace, outcome. destruct (f a); reflexivity.
Qed.

Lemma bind_Raise {A B} (m : M A) (f : A -> M B) l e :
  m = (l, Raise e) -> bind m f = (l, Raise e).
Proof. intros ->. reflexivity. Qed.

Lemma bind_Ok_inv {A B} (m : M A) (f : A -> M B) l b :
  bind m f = (l, Ok b) ->
  exists l1 a l2, m = (l1, Ok a) /\ f a = (l2, Ok b) /\ l = l1 ++ l2.
Proof.
  destruct m as [l1 [a | e]]; simpl; [| discriminate].
  destruct (f a) as [l2 r] eqn:E. intros H. inversion H; subst.
  exists l1, a, l2. auto.
Qed.

Lemma M_eta {A} (m : M A) : m = (trace m, outcome m).
Proof. destruct m; reflexivity. Qed.

(* ===================================================================== *)
(** ** Resolution of algorithm identifiers *)
(* ===================================================================== *)

Section Resolution.

Variable w : World.

Lemma boundaries_gt : get_boundaries_module w "gt" = Ok None.
Proof. reflexivity. Qed.


Lemma eval_no_attribute id :
  eval_algorithms w id = Raise AttributeError <->
  algorithms w id = None /\ not_an_algorithm w id = Some AttributeError.
Proof.
  unfold eval_algorithms. destruct (algorithms w id) as [m |].
  - split; [discriminate | intros [H _]; discriminate].
  - destruct (not_an_algorithm w id) as [e |].
    + split; [intros H; inversion H; auto
             | intros [_ H]; inversion H; reflexivity].
    + split; [discriminate | intros [_ H]; discriminate].
Qed.

Lemma eval_registered id m :
  algorithms w id = Some m -> eval_algorithms w id = Ok (Algorithm m).
Proof. intros H. unfold eval_algorithms. rewrite H. reflexivity. Qed.









Lemma boundaries_capable id m :
  id <> "gt" -> algorithms w id = Some m -> is_boundary_type m = true ->
  get_boundaries_module w id = Ok (Some m).
Proof.
  intros Hgt Hm Hflag. unfold get_boundaries_module.
  destruct (String.eqb_spec id "gt") as [-> | _]; [contradiction |].
  rewrite (eval_registered id m Hm), Hflag. reflexivity.
Qed.

Lemma labels_capable id m :
  algorithms w id = Some m -> is_label_type m = true ->
  get_labels_module w (Some id) = Ok (Some m).
Proof.
  intros Hm Hflag. simpl. rewrite (eval_registered id m Hm), Hflag.
  reflexivity.
Qed.

Lemma eval_Ok_inv id a :
  eval_algorithms w id = Ok a ->
  (exists m, a = Algorithm m /\ algorithms w id = Some m) \/ a = Flagless.
Proof.
  unfold eval_algorithms. destruct (algorithms w id) as [m |] eqn:Ha.
  - intros H. inversion H. left. exists m. auto.
  - destruct (not_an_algorithm w id); intros H; inversion H. right.
    reflexivity.
Qed.

Lemma boundaries_resolved id m :
  get_boundaries_module w id = Ok (Some m) ->
  id <> "gt" /\ algorithms w id = Some m /\ is_boundary_type m = true.
Proof.
  unfold get_boundaries_module.
  destruct (String.eqb_spec id "gt") as [-> | Hne]; [discriminate |].
  destruct (eval_algorithms w id) as [[m' |] | e] eqn:He.
  - destruct (eval_Ok_inv _ _ He) as [(m0 & Hm0 & Ha) | Hf];
      [| discriminate].
    inversion Hm0; subst m0.
    destruct (is_boundary_type m') eqn:E; simpl; [| discriminate].
    intros H. inversion H; subst. auto.
  - discriminate.
  - destruct e; discriminate.
Qed.

Lemma boundaries_null id :
  get_boundaries_module w id = Ok None -> id = "gt".
Proof.
  unfold get_boundaries_module.
  destruct (String.eqb_spec id "gt") as [-> | Hne]; [reflexivity |].
  destruct (eval_algorithms w id) as [[m' |] | e].
  - destruct (is_boundary_type m'); simpl; discriminate.
  - discriminate.
  - destruct e; discriminate.
Qed.

Lemma labels_resolved lid m :
  get_labels_module w lid = Ok (Some m) ->
  exists id, lid = Some id /\ algorithms w id = Some m /\
             is_label_type m = true.
Proof.
  destruct lid as [id |]; simpl; [| discriminate].
  destruct (eval_algorithms w id) as [[m' |] | e] eqn:He.
  - destruct (eval_Ok_inv _ _ He) as [(m0 & Hm0 & Ha) | Hf];
      [| discriminate].
    inversion Hm0; subst m0.
    destruct (is_label_type m') eqn:E; simpl; [| discriminate].
    intros H. inversion H; subst. exists id. auto.
  - discriminate.
  - destruct e; discriminate.
Qed.

Lemma labels_null lid :
  get_labels_module w lid = Ok None -> lid = None.
Proof.
  destruct lid as [id |]; [| reflexivity]. simpl.
  destruct (eval_algorithms w id) as [[m' |] | e].
  - destruct (is_label_type m'); simpl; discriminate.
  - discriminate.
  - destruct e; discriminate.
Qed.

End Resolution.

(** Prefixing keeps two different messages different: the errors for an
    unknown identifier and for a missing capability never coincide. *)
Lemma append_cancel (p s t : string) : (p ++ s)%string = (p ++ t)%string -> s = t.
Proof.
  induction p as [| c p IH]; simpl; intros H; [assumption |].
  inversion H. auto.
Qed.

Lemma unknown_is_not_mismatch id :
  UnknownAlgorithm id <> CapabilityMismatch_boundaries id /\
  UnknownAlgorithm id <> CapabilityMismatch_labels id.
Proof.
  unfold UnknownAlgorithm, CapabilityMismatch_boundaries,
    CapabilityMismatch_labels, Msg.not_found, Msg.no_boundaries, Msg.no_labels.
  split; intros H; inversion H as [H'];
    apply append_cancel in H'; discriminate.
Qed.




(* ===================================================================== *)
(** ** run_algorithms: the frame check and the configuration errors *)
(* ===================================================================== *)

Section Orchestration.

Variable w : World.
Variables (audio boundaries_id : string) (labels_id : option string).
Variables (config : Config) (f : Features).

Hypothesis Hfeat :
  get_features w audio (annot_beats config) (framesync config)
               (features config) = Ok f.

Lemma run_short :
  (shape0 (hpcp f) <= minimum__frames w)%nat ->
  run_algorithms w audio boundaries_id labels_id config =
  ([features_event audio config; EvWarning Msg.too_short],
   Ok (Flat [0%Q; dur f] [0%Z])).
Proof.
  intros Hle. unfold run_algorithms. rewrite Hfeat.
  unfold call at 1. cbn [bind].
  destruct (Nat.leb_spec (shape0 (hpcp f)) (minimum__frames w)); [| lia].
  reflexivity.
Qed.

Lemma run_boundaries_error e :
  (minimum__frames w < shape0 (hpcp f))%nat ->
  get_boundaries_module w boundaries_id = Raise e ->
  run_algorithms w audio boundaries_id labels_id config =
  ([features_event audio config], Raise e).
Proof.
  intros Hlt Hb. unfold run_algorithms. rewrite Hfeat.
  unfold call at 1. cbn [bind].
  destruct (Nat.leb_spec (shape0 (hpcp f)) (minimum__frames w)); [lia |].
  rewrite Hb. reflexivity.
Qed.

Lemma run_labels_error bm e :
  (minimum__frames w < shape0 (hpcp f))%nat ->
  get_boundaries_module w boundaries_id = Ok bm ->
  get_labels_module w labels_id = Raise e ->
  run_algorithms w audio boundaries_id labels_id config =
  ([features_event audio config], Raise e).
Proof.
  intros Hlt Hb Hl. unfold run_algorithms. rewrite Hfeat.
  unfold call at 1. cbn [bind].
  destruct (Nat.leb_spec (shape0 (hpcp f)) (minimum__frames w)); [lia |].
  rewrite Hb, Hl. reflexivity.
Qed.

Lemma run_resolved bm lm :
  (minimum__frames w < shape0 (hpcp f))%nat ->
  get_boundaries_module w boundaries_id = Ok bm ->
  get_labels_module w labels_id = Ok lm ->
  run_algorithms w audio boundaries_id labels_id config =
  (features_event audio config :: grid_events config
     ++ trace (segmentation w audio config f bm lm),
   outcome (segmentation w audio config f bm lm)).
Proof.
  intros Hlt Hb Hl. unfold run_algorithms. rewrite Hfeat.
  erewrite bind_Ok by reflexivity.
  destruct (Nat.leb_spec (shape0 (hpcp f)) (minimum__frames w)); [lia |].
  rewrite Hb, Hl.
  do 2 (erewrite bind_Ok by reflexivity; cbn [trace outcome fst snd app]).
  unfold segmentation, frame_grid, grid_events, features_event.
  destruct (framesync config) eqn:Efs;
    erewrite bind_Ok by reflexivity; cbn [trace outcome fst snd app];
    reflexivity.
Qed.

End Orchestration.

(** C2.  On a track whose frame count is at or below the threshold,
    [run_algorithms] returns the boundaries [0, dur] with the label [0]; it
    does not raise, and the log holds the loading of the features and the
    warning only: no algorithm is invoked. *)
Theorem short_track_short_circuit w audio boundaries_id labels_id config f :
  get_features w audio (annot_beats config) (framesync config)
               (features config) = Ok f ->
  (shape0 (hpcp f) <= minimum__frames w)%nat ->
  run_algorithms w audio boundaries_id labels_id config =
    ([features_event audio config; EvWarning Msg.too_short],
     Ok (Flat [0%Q; dur f] [0%Z])) /\
  existsb algorithm_event
    (trace (run_algorithms w audio boundaries_id labels_id config)) = false.
Proof.
  intros Hfeat Hle.
  rewrite (run_short w audio boundaries_id labels_id config f Hfeat Hle).
  split; reflexivity.
Qed.

Lemma short_track_short_circuit_witness :
  let w := Examples.world 10 (fun _ => Ok Examples.short_track)
             Examples.no_refs Examples.no_jams [] in
  run_algorithms w "song.mp3" "foote" (Some "fmc2d") Examples.flat_config =
    ([EvGetFeatures "song.mp3" false false; EvWarning Msg.too_short],
     Ok (Flat [0%Q; 3%Q] [0%Z])) /\
  existsb algorithm_event
    (trace (run_algorithms w "song.mp3" "foote" (Some "fmc2d")
                           Examples.flat_config)) = false.
Proof.
  intros w.
  apply (short_track_short_circuit w "song.mp3" "foote" (Some "fmc2d")
           Examples.flat_config Examples.short_track).
  - reflexivity.
  - simpl. lia.
Defined.

(** C3, as stated, fails: a hierarchical call does not always reach the
    two checks.  On a track at or below the threshold the ground-truth
    sentinel, and two distinct algorithms, give the two-point result and no
    error.  On a longer track the sentinel with a label identifier that
    does not resolve fails with UnknownAlgorithm, and a track whose features
    cannot be read fails with the error of the reading. *)
Lemma hierarchical_checks_counterexample :
  (let w := Examples.world 10 (fun _ => Ok Examples.short_track)
              Examples.no_refs Examples.no_jams [] in
   hier Examples.hier_config = true /\
   run_algorithms w "song.mp3" "gt" None Examples.hier_config =
     ([EvGetFeatures "song.mp3" false false; EvWarning Msg.too_short],
      Ok (Flat [0%Q; 3%Q] [0%Z])) /\
   get_boundaries_module w "foote" = Ok (Some Examples.foote) /\
   get_labels_module w (Some "fmc2d") = Ok (Some Examples.fmc2d) /\
   mod_name Examples.foote <> mod_name Examples.fmc2d /\
   run_algorithms w "song.mp3" "foote" (Some "fmc2d") Examples.hier_config =
     ([EvGetFeatures "song.mp3" false false; EvWarning Msg.too_short],
      Ok (Flat [0%Q; 3%Q] [0%Z]))) /\
  (let w := Examples.world 10 (fun _ => Ok (Examples.long_track
                                              Examples.beat_grid))
              Examples.refs_180 Examples.no_jams [] in
   run_algorithms w "song.mp3" "gt" (Some "nope") Examples.hier_config =
     ([EvGetFeatures "song.mp3" false false],
      Raise (UnknownAlgorithm "nope")) /\
   UnknownAlgorithm "nope" <> MissingBoundaryAlgorithm) /\
  (let w := Examples.world 10 Examples.feats_of Examples.refs_180
              Examples.no_jams [] in
   run_algorithms w "broken.mp3" "gt" None Examples.hier_config =
     ([EvGetFeatures "broken.mp3" false false],
      Raise (CollaboratorError "IOError")) /\
   CollaboratorError "IOError" <> MissingBoundaryAlgorithm).
Proof.
  split; [| split].
  - repeat split; try reflexivity. discriminate.
  - split; [reflexivity | discriminate].
  - split; [reflexivity | discriminate].
Qed.

(** C3, amended.  In hierarchical mode, on a track whose features load and
    that passes the frame check, and with a label identifier that resolves:
    the ground-truth sentinel fails
    with MissingBoundaryAlgorithm, and two resolved algorithms with
    different names fail with IncompatibleHierarchicalAlgorithms.  Either
    way the log holds the loading of the features (and of the uniform grid)
    only: no entry point of any algorithm has been called. *)
Theorem hierarchical_compatibility w audio boundaries_id labels_id config f :
  get_features w audio (annot_beats config) (framesync config)
               (features config) = Ok f ->
  (minimum__frames w < shape0 (hpcp f))%nat ->
  hier config = true ->
  (forall lm,
     boundaries_id = "gt" -> get_labels_module w labels_id = Ok lm ->
     run_algorithms w audio boundaries_id labels_id config =
       (features_event audio config :: grid_events config,
        Raise MissingBoundaryAlgorithm)) /\
  (forall bm lm,
     get_boundaries_module w boundaries_id = Ok (Some bm) ->
     get_labels_module w labels_id = Ok (Some lm) ->
     mod_name bm <> mod_name lm ->
     run_algorithms w audio boundaries_id labels_id config =
       (features_event audio config :: grid_events config,
        Raise IncompatibleHierarchicalAlgorithms)) /\
  existsb algorithm_event (features_event audio config :: grid_events config)
    = false.
Proof.
  intros Hfeat Hlt Hhier. split; [| split].
  - intros lm -> Hl.
    rewrite (run_resolved w audio "gt" labels_id config f Hfeat None lm
               Hlt (boundaries_gt w) Hl).
    unfold segmentation. rewrite Hhier. simpl. rewrite app_nil_r.
    reflexivity.
  - intros bm lm Hb Hl Hne.
    rewrite (run_resolved w audio boundaries_id labels_id config f Hfeat
               (Some bm) (Some lm) Hlt Hb Hl).
    unfold segmentation, same_name. rewrite Hhier.
    destruct (String.eqb_spec (mod_name bm) (mod_name lm)); [contradiction |].
    simpl. rewrite app_nil_r. reflexivity.
  - unfold grid_events. destruct (framesync config); reflexivity.
Qed.

Lemma hierarchical_compatibility_witness :
  let w := Examples.world 10 (fun _ => Ok (Examples.long_track
                                             Examples.beat_grid))
             Examples.refs_180 Examples.no_jams [] in
  run_algorithms w "song.mp3" "gt" None Examples.hier_config =
    ([EvGetFeatures "song.mp3" false false], Raise MissingBoundaryAlgorithm) /\
  run_algorithms w "song.mp3" "foote" (Some "fmc2d") Examples.hier_config =
    ([EvGetFeatures "song.mp3" false false],
     Raise IncompatibleHierarchicalAlgorithms).
Proof.
  intros w. split.
  - apply (proj1 (hierarchical_compatibility w "song.mp3" "gt" None
                    Examples.hier_config
                    (Examples.long_track Examples.beat_grid)
                    eq_refl ltac:(simpl; lia) eq_refl) None);
      reflexivity.
  - apply (proj1 (proj2 (hierarchical_compatibility w "song.mp3" "foote"
                           (Some "fmc2d") Examples.hier_config
                           (Examples.long_track Examples.beat_grid)
                           eq_refl ltac:(simpl; lia) eq_refl))
             Examples.foote Examples.fmc2d).
    + reflexivity.
    + reflexivity.
    + discriminate.
Defined.

(** C4, as stated, fails: a flat request for ground-truth boundaries on a
    track without references does not always reach the reading of the
    references.  On a track at or below the threshold it returns the
    two-point result, not the empty pair.  On a longer track a label
    identifier that does not resolve raises UnknownAlgorithm, and a track
    whose features cannot be read raises the error of the reading. *)
Lemma missing_references_counterexample :
  (let w := Examples.world 10 (fun _ => Ok Examples.short_track)
              Examples.no_refs Examples.no_jams [] in
   hier Examples.flat_config = false /\
   read_references w "song.mp3" = Raise (CollaboratorError "IOError") /\
   run_algorithms w "song.mp3" "gt" None Examples.flat_config =
     ([EvGetFeatures "song.mp3" false false; EvWarning Msg.too_short],
      Ok (Flat [0%Q; 3%Q] [0%Z])) /\
   Flat [0%Q; 3%Q] [0%Z] <> Flat [] []) /\
  (let w := Examples.world 10 (fun _ => Ok (Examples.long_track
                                              Examples.beat_grid))
              Examples.no_refs Examples.no_jams [] in
   read_references w "song.mp3" = Raise (CollaboratorError "IOError") /\
   run_algorithms w "song.mp3" "gt" (Some "nope") Examples.flat_config =
     ([EvGetFeatures "song.mp3" false false],
      Raise (UnknownAlgorithm "nope"))) /\
  (let w := Examples.world 10 Examples.feats_of Examples.no_refs
              Examples.no_jams [] in
   read_references w "broken.mp3" = Raise (CollaboratorError "IOError") /\
   run_algorithms w "broken.mp3" "gt" None Examples.flat_config =
     ([EvGetFeatures "broken.mp3" false false],
      Raise (CollaboratorError "IOError"))).
Proof.
  split; [| split].
  - repeat split; try reflexivity. discriminate.
  - split; reflexivity.
  - split; reflexivity.
Qed.

(** C4, amended.  A flat request for ground-truth boundaries, on a track
    whose features load and that passes the frame check, and with a label
    identifier that resolves: when reading
    the references raises, [run_algorithms] logs the warning and returns the
    empty pair; it does not raise. *)
Theorem missing_references_empty_result w audio labels_id config f lm e :
  get_features w audio (annot_beats config) (framesync config)
               (features config) = Ok f ->
  (minimum__frames w < shape0 (hpcp f))%nat ->
  hier config = false ->
  get_labels_module w labels_id = Ok lm ->
  read_references w audio = Raise e ->
  run_algorithms w audio "gt" labels_id config =
    (features_event audio config :: grid_events config
       ++ [EvReadReferences audio; EvWarning (Msg.no_references audio)],
     Ok (Flat [] [])).
Proof.
  intros Hfeat Hlt Hhier Hl Href.
  rewrite (run_resolved w audio "gt" labels_id config f Hfeat None lm
             Hlt (boundaries_gt w) Hl).
  unfold segmentation. rewrite Hhier.
  unfold flat_raw, split_segmentation, identify_boundaries.
  rewrite Href. reflexivity.
Qed.

Lemma missing_references_empty_result_witness :
  let w := Examples.world 10 (fun _ => Ok (Examples.long_track
                                             Examples.beat_grid))
             Examples.no_refs Examples.no_jams [] in
  run_algorithms w "song.mp3" "gt" (Some "fmc2d") Examples.flat_config =
    ([EvGetFeatures "song.mp3" false false; EvReadReferences "song.mp3";
      EvWarning "No references found for file: song.mp3"],
     Ok (Flat [] [])).
Proof.
  intros w.
  apply (missing_references_empty_result w "song.mp3" (Some "fmc2d")
           Examples.flat_config (Examples.long_track Examples.beat_grid)
           (Some Examples.fmc2d) (CollaboratorError "IOError")).
  - reflexivity.
  - simpl. lia.
  - reflexivity.
  - reflexivity.
  - reflexivity.
Defined.

(** C8, as stated, fails: on a track at or below the threshold an unknown
    boundary identifier raises nothing.  The features are loaded, the
    warning is logged and the two-point result is returned. *)
Lemma configuration_error_on_short_track_counterexample :
  let w := Examples.world 10 (fun _ => Ok Examples.short_track)
             Examples.no_refs Examples.no_jams [] in
  get_boundaries_module w "nope" = Raise (UnknownAlgorithm "nope") /\
  run_algorithms w "song.mp3" "nope" None Examples.flat_config =
    ([EvGetFeatures "song.mp3" false false; EvWarning Msg.too_short],
     Ok (Flat [0%Q; 3%Q] [0%Z])).
Proof. split; reflexivity. Qed.

(** C8, amended.  A configuration error of the request is raised after the
    features have been loaded and the frame check has passed, and before
    anything else is called: the log holds the loading of the features
    only.  On a track at or below the threshold the identifiers are not
    resolved and the two-point result is returned, whatever they are. *)
Theorem configuration_errors_follow_frame_check
  w audio boundaries_id labels_id config f :
  get_features w audio (annot_beats config) (framesync config)
               (features config) = Ok f ->
  ((minimum__frames w < shape0 (hpcp f))%nat ->
   forall e, configuration_error w boundaries_id labels_id e ->
   run_algorithms w audio boundaries_id labels_id config =
     ([features_event audio config], Raise e)) /\
  ((shape0 (hpcp f) <= minimum__frames w)%nat ->
   run_algorithms w audio boundaries_id labels_id config =
     ([features_event audio config; EvWarning Msg.too_short],
      Ok (Flat [0%Q; dur f] [0%Z]))).
Proof.
  intros Hfeat. split.
  - intros Hlt e [Hb | [bm [Hb Hl]]].
    + apply (run_boundaries_error w audio boundaries_id labels_id config f
               Hfeat e Hlt Hb).
    + apply (run_labels_error w audio boundaries_id labels_id config f
               Hfeat bm e Hlt Hb Hl).
  - apply run_short. exact Hfeat.
Qed.

Lemma configuration_errors_follow_frame_check_witness :
  let w := Examples.world 10 (fun _ => Ok (Examples.long_track
                                             Examples.beat_grid))
             Examples.no_refs Examples.no_jams [] in
  run_algorithms w "song.mp3" "nope" None Examples.flat_config =
    ([EvGetFeatures "song.mp3" false false], Raise (UnknownAlgorithm "nope")) /\
  run_algorithms w "song.mp3" "foote" (Some "foote") Examples.flat_config =
    ([EvGetFeatures "song.mp3" false false],
     Raise (CapabilityMismatch_labels "foote")).
Proof.
  intros w. split.
  - apply (proj1 (configuration_errors_follow_frame_check w "song.mp3" "nope"
                    None Examples.flat_config
                    (Examples.long_track Examples.beat_grid) eq_refl)).
    + simpl. lia.
    + left. reflexivity.
  - apply (proj1 (configuration_errors_follow_frame_check w "song.mp3" "foote"
                    (Some "foote") Examples.flat_config
                    (Examples.long_track Examples.beat_grid) eq_refl)).
    + simpl. lia.
    + right. exists (Some Examples.foote). split; reflexivity.
Defined.

(* ===================================================================== *)
(** ** Tracks and collections *)
(* ===================================================================== *)

Lemma Parallel_Ok_inv {A} n (jobs : list (M A)) t rs :
  Parallel n jobs = (t, Ok rs) ->
  Forall2 (fun job r => outcome job = Ok r) jobs rs /\
  t = concat (map trace jobs).
Proof.
  revert t rs. induction jobs as [| job jobs IH]; intros t rs H.
  - inversion H; subst. split; [constructor | reflexivity].
  - simpl in H. apply bind_Ok_inv in H.
    destruct H as (l1 & a & l2 & Hjob & H & ->).
    apply bind_Ok_inv in H. destruct H as (l3 & rest & l4 & Hrest & H & ->).
    inversion H; subst. apply IH in Hrest. destruct Hrest as [HF ->].
    split.
    + constructor; [reflexivity | assumption].
    + simpl. rewrite app_nil_r. reflexivity.
Qed.

Lemma Parallel_Raise {A} n (before : list (M A)) job after e :
  Forall (fun j => exists r, outcome j = Ok r) before ->
  outcome job = Raise e ->
  Parallel n (before ++ job :: after) =
  (concat (map trace before) ++ trace job, Raise e).
Proof.
  intros Hbefore Hjob. induction Hbefore as [| j before [r Hr] _ IH].
  - simpl. rewrite (M_eta job), Hjob. reflexivity.
  - simpl. rewrite (M_eta j), Hr.
    erewrite bind_Ok by reflexivity. rewrite IH. simpl.
    rewrite app_assoc. reflexivity.
Qed.

Section Batch.

Variable w : World.
Variables (in_path feature ds_name : string) (annot_beats_ framesync_ : bool).
Variables (boundaries_id : string) (labels_id : option string).
Variables (hier_ sonify_bounds plot : bool) (n_jobs : nat).
Variables (cfg : option Config) (out_bounds : string).
Variables (config : Config) (files : list FileStruct).

Hypothesis Hdir : isfile w in_path = false.
Hypothesis Hconfig :
  effective_config w cfg feature annot_beats_ framesync_ boundaries_id
                   labels_id hier_ = Ok config.
Hypothesis Hfiles : get_dataset_files w in_path ds_name = Ok files.

Lemma process_collection :
  process w in_path annot_beats_ feature ds_name framesync_ boundaries_id
          labels_id hier_ sonify_bounds plot n_jobs cfg out_bounds =
  (EvSeed 123 :: config_events cfg
     ++ EvGetDatasetFiles in_path ds_name
     :: trace (Parallel n_jobs
                 (map (fun file_struct =>
                         process_track w file_struct boundaries_id labels_id
                                       config) files)),
   match outcome (Parallel n_jobs
                    (map (fun file_struct =>
                            process_track w file_struct boundaries_id
                                          labels_id config) files)) with
   | Ok results => Ok (Collection results)
   | Raise e => Raise e
   end).
Proof.
  unfold process. erewrite bind_Ok by reflexivity.
  cbn [trace outcome fst snd app].
  assert (Hc : (match cfg with
                | Some c => ret c
                | None =>
                    c <- call EvGetConfiguration
                           (get_configuration w feature annot_beats_
                              framesync_ boundaries_id labels_id) ;;
                    ret (set_hier (set_features c None) hier_)
                end) = (config_events cfg, Ok config)).
  { unfold effective_config in Hconfig. destruct cfg as [c |].
    - inversion Hconfig; subst. reflexivity.
    - destruct (get_configuration w feature annot_beats_ framesync_
                  boundaries_id labels_id) as [c | e]; [| discriminate].
      inversion Hconfig; subst. reflexivity. }
  rewrite Hc. erewrite bind_Ok by reflexivity.
  cbn [trace outcome fst snd]. rewrite Hdir, Hfiles.
  erewrite bind_Ok by reflexivity. cbn [trace outcome fst snd app].
  destruct (Parallel n_jobs _) as [t [results | e]];
    cbn [bind ret trace outcome fst snd]; rewrite ?app_nil_r; reflexivity.
Qed.

End Batch.

Lemma process_track_no_beats w fs boundaries_id labels_id config jam :
  annot_beats config = true ->
  jams2_load w (ref_file fs) = Ok jam ->
  no_beat_datum jam ->
  process_track w fs boundaries_id labels_id config =
  ([EvJamsLoad (ref_file fs); EvWarning (Msg.no_beats (ref_file fs))],
   Ok None).
Proof.
  intros Hab Hjam Hnone. unfold process_track. rewrite Hab, Hjam.
  unfold no_beat_datum in Hnone. unfold call. cbn [bind].
  destruct (jam_beats jam) as [| layer rest]; [reflexivity |].
  inversion Hnone as [| ? ? Hdata _]; subst. simpl. rewrite Hdata.
  reflexivity.
Qed.

Lemma Forall2_middle {A B} (R : A -> B -> Prop) before x after l :
  Forall2 R (before ++ x :: after) l ->
  exists y, nth_error l (List.length before) = Some y /\ R x y.
Proof.
  intros H. apply Forall2_app_inv_l in H.
  destruct H as (l1 & l2 & H1 & H2 & ->).
  inversion H2 as [| ? y ? l2' Hxy _]; subst. exists y. split; [| exact Hxy].
  rewrite (Forall2_length H1), nth_error_app2, Nat.sub_diag by lia.
  reflexivity.
Qed.

(** C10.  With [annot_beats] set and a reference file none of whose beat
    layers holds a datum, [process_track] returns None: the log holds the
    loading of the reference file and the warning, so no algorithm has run
    and nothing has been saved.  In a collection, the entry of such a track
    in the list the batch returns is None. *)
Theorem track_without_beats_is_skipped
  w fs boundaries_id labels_id config jam :
  annot_beats config = true ->
  jams2_load w (ref_file fs) = Ok jam ->
  no_beat_datum jam ->
  process_track w fs boundaries_id labels_id config =
    ([EvJamsLoad (ref_file fs); EvWarning (Msg.no_beats (ref_file fs))],
     Ok None) /\
  existsb (fun e => algorithm_event e || persists e)
    (trace (process_track w fs boundaries_id labels_id config)) = false /\
  (forall in_path feature ds_name annot_beats_ framesync_ hier_ sonify_bounds
          plot n_jobs cfg out_bounds before after t results,
     isfile w in_path = false ->
     effective_config w cfg feature annot_beats_ framesync_ boundaries_id
                      labels_id hier_ = Ok config ->
     get_dataset_files w in_path ds_name = Ok (before ++ fs :: after) ->
     process w in_path annot_beats_ feature ds_name framesync_ boundaries_id
             labels_id hier_ sonify_bounds plot n_jobs cfg out_bounds =
       (t, Ok (Collection results)) ->
     nth_error results (List.length before) = Some None).
Proof.
  intros Hab Hjam Hnone.
  pose proof (process_track_no_beats w fs boundaries_id labels_id config jam
                Hab Hjam Hnone) as Htrack.
  split; [exact Htrack |]. split; [rewrite Htrack; reflexivity |].
  intros in_path feature ds_name annot_beats_ framesync_ hier_ sonify_bounds
         plot n_jobs cfg out_bounds before after t results
         Hdir Hconfig Hfiles Hrun.
  rewrite (process_collection w in_path feature ds_name annot_beats_
             framesync_ boundaries_id labels_id hier_ sonify_bounds plot
             n_jobs cfg out_bounds config (before ++ fs :: after)
             Hdir Hconfig Hfiles) in Hrun.
  match type of Hrun with
  | context [Parallel n_jobs ?js] =>
      destruct (Parallel n_jobs js) as [tp [rs | e]] eqn:Hpar
  end; cbn [outcome snd] in Hrun; [| discriminate].
  inversion Hrun; subst. apply Parallel_Ok_inv in Hpar.
  destruct Hpar as [HF _]. rewrite map_app in HF. simpl in HF.
  apply Forall2_middle in HF. destruct HF as (y & Hnth & Hy).
  rewrite length_map in Hnth. rewrite Htrack in Hy. simpl in Hy.
  inversion Hy; subst. exact Hnth.
Qed.

Lemma track_without_beats_is_skipped_witness :
  let w := Examples.world 10 Examples.feats_of Examples.refs_180
             Examples.jams_of ["a.mp3"; "nobeats.mp3"; "c.mp3"] in
  process_track w (Examples.paths "nobeats.mp3") "gt" None
                Examples.beats_config =
    ([EvJamsLoad "nobeats.mp3.jams";
      EvWarning "No beat information in file nobeats.mp3.jams"], Ok None) /\
  outcome (process w "dataset" true "mfcc" "*" false "gt" None false false
                   false 4 (Some Examples.beats_config) "out_bounds.wav") =
    Ok (Collection [Some (Flat [0; 40; 95; 180]%Q [1; 2; 1]%Z); None;
                    Some (Flat [0; 40; 95; 180]%Q [1; 2; 1]%Z)]).
Proof.
  intros w. split; [| reflexivity].
  apply (proj1 (track_without_beats_is_skipped w
                  (Examples.paths "nobeats.mp3") "gt" None
                  Examples.beats_config (mkJam [mkBeatLayer []])
                  eq_refl eq_refl
                  ltac:(repeat constructor))).
Defined.

(** C9, as stated, fails: in a collection of three tracks the features of
    the second cannot be read.  The exception leaves [process]: no list of
    results comes back, no failure is recorded for the track, and the third
    track is never started. *)
Lemma batch_exception_counterexample :
  process (Examples.world 10 Examples.feats_of Examples.refs_180
             Examples.jams_of ["a.mp3"; "broken.mp3"; "c.mp3"])
          "dataset" false "mfcc" "*" false "gt" None false false false 1
          None "out_bounds.wav" =
  ([EvSeed 123; EvGetConfiguration; EvGetDatasetFiles "dataset" "*";
    EvInfo "Segmenting a.mp3"; EvGetFeatures "a.mp3" false false;
    EvReadReferences "a.mp3";
    EvAlignTimes [0; 40; 95; 180]%Q
                 [0; 20; 40; 60; 80; 95; 110; 125; 140; 160; 180]%Q;
    EvProcessSegmentationLevel [0; 2; 5; 10]%nat [1; 2; 1]%Z;
    EvInfo "Writing results in: a.mp3.estimation.json";
    EvSaveEstimations "a.mp3.estimation.json"
      (Flat [0; 40; 95; 180]%Q [1; 2; 1]%Z) "gt" None;
    EvInfo "Segmenting broken.mp3"; EvGetFeatures "broken.mp3" false false],
   Raise (CollaboratorError "IOError")).
Proof. reflexivity. Qed.

(** C9, amended.  In collection mode, with the tracks dispatched in order:
    when [process_track] raises on a track and has returned on every track
    before it, the exception leaves [process] as it is.  No collection of
    results is returned, and the log ends with what that track did: the
    tracks after it are not processed. *)
Theorem batch_exception_propagates
  w in_path feature ds_name annot_beats_ framesync_ boundaries_id labels_id
  hier_ sonify_bounds plot n_jobs cfg out_bounds config before fs after e :
  isfile w in_path = false ->
  effective_config w cfg feature annot_beats_ framesync_ boundaries_id
                   labels_id hier_ = Ok config ->
  get_dataset_files w in_path ds_name = Ok (before ++ fs :: after) ->
  Forall (fun x => exists r,
            outcome (process_track w x boundaries_id labels_id config) = Ok r)
         before ->
  outcome (process_track w fs boundaries_id labels_id config) = Raise e ->
  process w in_path annot_beats_ feature ds_name framesync_ boundaries_id
          labels_id hier_ sonify_bounds plot n_jobs cfg out_bounds =
  (EvSeed 123 :: config_events cfg
     ++ EvGetDatasetFiles in_path ds_name
     :: concat (map (fun x => trace (process_track w x boundaries_id
                                                   labels_id config)) before)
     ++ trace (process_track w fs boundaries_id labels_id config),
   Raise e).
Proof.
  intros Hdir Hconfig Hfiles Hbefore Hfs.
  rewrite (process_collection w in_path feature ds_name annot_beats_
             framesync_ boundaries_id labels_id hier_ sonify_bounds plot
             n_jobs cfg out_bounds config (before ++ fs :: after)
             Hdir Hconfig Hfiles).
  rewrite map_app. simpl map.
  rewrite (Parallel_Raise n_jobs _ _ _ e); [| | exact Hfs].
  - rewrite map_map. reflexivity.
  - apply Forall_map. exact Hbefore.
Qed.

Lemma batch_exception_propagates_witness :
  outcome
    (process (Examples.world 10 Examples.feats_of Examples.refs_180
                Examples.jams_of ["a.mp3"; "broken.mp3"; "c.mp3"])
             "dataset" false "mfcc" "*" false "gt" None false false false 4
             None "out_bounds.wav") =
  Raise (CollaboratorError "IOError").
Proof.
  rewrite (batch_exception_propagates
             (Examples.world 10 Examples.feats_of Examples.refs_180
                Examples.jams_of ["a.mp3"; "broken.mp3"; "c.mp3"])
             "dataset" "mfcc" "*" false false "gt" None false false false 4
             None "out_bounds.wav" (mkConfig false false None false [])
             [Examples.paths "a.mp3"] (Examples.paths "broken.mp3")
             [Examples.paths "c.mp3"] (CollaboratorError "IOError")).
  - reflexivity.
  - reflexivity.
  - reflexivity.
  - reflexivity.
  - constructor; [| constructor].
    exists (Some (Flat [0; 40; 95; 180]%Q [1; 2; 1]%Z)). reflexivity.
  - reflexivity.
Defined.

(* ===================================================================== *)
(** ** The flat branch *)
(* ===================================================================== *)

Lemma identify_boundaries_trace w audio config bm grid name :
  (forall b, bm = Some b -> mod_name b <> name) ->
  existsb (invokes name)
    (trace (identify_boundaries w audio config bm grid)) = false.
Proof.
  intros Hne. unfold identify_boundaries. destruct bm as [b |].
  - specialize (Hne b eq_refl). unfold segment_flat, emit, call.
    cbn [bind]. destruct (processFlat b _) as [r | e];
      cbn [bind ret trace fst app existsb invokes];
      destruct (String.eqb_spec (mod_name b) name); try contradiction;
      reflexivity.
  - unfold call. destruct (read_references w audio) as [[ts ls] | e].
    + cbn [bind]. destruct (align_times w ts (removelast grid));
        reflexivity.
    + reflexivity.
Qed.

Lemma split_two_boundaries w audio config bm lm grid est_idxs est_labels :
  outcome (identify_boundaries w audio config bm grid) =
    Ok (Some (est_idxs, est_labels)) ->
  List.length est_idxs = 2%nat ->
  split_segmentation w audio config bm (Some lm) grid =
  (trace (identify_boundaries w audio config bm grid),
   Ok (Some (est_idxs, [0%Z]))).
Proof.
  intros Hid Hlen. unfold split_segmentation.
  erewrite bind_Ok
    by (rewrite (M_eta (identify_boundaries _ _ _ _ _)), Hid; reflexivity).
  unfold label_segments. rewrite Hlen. simpl. rewrite app_nil_r.
  reflexivity.
Qed.

(** C5, as stated, fails: when one algorithm is asked for both boundaries
    and labels, its flat entry point is called, and the label handed to the
    normaliser for the single segment it finds is its own, [7], not [0]. *)
Lemma two_boundaries_same_algorithm_counterexample :
  let w := Examples.world 10 (fun _ => Ok (Examples.long_track
                                             Examples.beat_grid))
             Examples.no_refs Examples.no_jams [] in
  let run := run_algorithms w "song.mp3" "scluster" (Some "scluster")
                            Examples.flat_config in
  get_labels_module w (Some "scluster") = Ok (Some Examples.scluster) /\
  In (EvProcessFlat (mod_name Examples.scluster)) (trace run) /\
  In (EvProcessSegmentationLevel [0; 10]%nat [7%Z]) (trace run) /\
  outcome run = Ok (Flat [0; 180]%Q [7%Z]).
Proof.
  split; [reflexivity |]. split; [| split].
  - right. right. left. reflexivity.
  - right. right. right. left. reflexivity.
  - reflexivity.
Qed.

(** C5, amended.  A flat request whose label algorithm is not the boundary
    algorithm (the boundaries are the ground truth, or the two modules have
    different names), on a track that passes the frame check: when the
    boundary step yields exactly two indices, the label algorithm is never
    called, and the normaliser is handed these indices with the label
    [0]. *)
Theorem two_boundaries_skip_labeling
  w audio boundaries_id labels_id config f bm lm est_idxs est_labels :
  get_features w audio (annot_beats config) (framesync config)
               (features config) = Ok f ->
  (minimum__frames w < shape0 (hpcp f))%nat ->
  hier config = false ->
  get_boundaries_module w boundaries_id = Ok bm ->
  get_labels_module w labels_id = Ok (Some lm) ->
  (forall b, bm = Some b -> mod_name b <> mod_name lm) ->
  outcome (identify_boundaries w audio config bm (frame_grid w f config)) =
    Ok (Some (est_idxs, est_labels)) ->
  List.length est_idxs = 2%nat ->
  let run := run_algorithms w audio boundaries_id labels_id config in
  trace run =
    features_event audio config :: grid_events config
      ++ trace (identify_boundaries w audio config bm (frame_grid w f config))
      ++ [EvProcessSegmentationLevel est_idxs [0%Z]] /\
  existsb (invokes (mod_name lm)) (trace run) = false /\
  outcome run =
    match process_segmentation_level w est_idxs [0%Z] (shape0 (hpcp f))
                                     (frame_grid w f config) (dur f) with
    | Ok (est_times, est_labels') => Ok (Flat est_times est_labels')
    | Raise e => Raise e
    end.
Proof.
  intros Hfeat Hlt Hhier Hb Hl Hne Hid Hlen run.
  assert (Hraw : flat_raw w audio config bm (Some lm) (frame_grid w f config)
                 = (trace (identify_boundaries w audio config bm
                             (frame_grid w f config)),
                    Ok (Some (est_idxs, [0%Z])))).
  { unfold flat_raw. destruct bm as [b |].
    - unfold same_name.
      destruct (String.eqb_spec (mod_name b) (mod_name lm)) as [E | _];
        [elim (Hne b eq_refl E) |].
      apply (split_two_boundaries _ _ _ _ _ _ _ est_labels); assumption.
    - apply (split_two_boundaries _ _ _ _ _ _ _ est_labels); assumption. }
  assert (Hrun : run =
    (features_event audio config :: grid_events config
       ++ trace (identify_boundaries w audio config bm (frame_grid w f config))
       ++ [EvProcessSegmentationLevel est_idxs [0%Z]],
     match process_segmentation_level w est_idxs [0%Z] (shape0 (hpcp f))
                                      (frame_grid w f config) (dur f) with
     | Ok (est_times, est_labels') => Ok (Flat est_times est_labels')
     | Raise e => Raise e
     end)).
  { unfold run.
    rewrite (run_resolved w audio boundaries_id labels_id config f Hfeat
               bm (Some lm) Hlt Hb Hl).
    unfold segmentation. rewrite Hhier.
    erewrite bind_Ok by exact Hraw.
    unfold normalize_level, call.
    destruct (process_segmentation_level w est_idxs [0%Z] (shape0 (hpcp f))
                (frame_grid w f config) (dur f)) as [[ts ls] | e];
      cbn [bind ret trace outcome fst snd]; rewrite ?app_nil_r;
      reflexivity. }
  rewrite Hrun. cbn [trace outcome fst snd]. split; [reflexivity |].
  split; [| reflexivity].
  cbn [existsb invokes]. rewrite !existsb_app.
  rewrite (identify_boundaries_trace w audio config bm _ _ Hne).
  unfold grid_events, features_event. destruct (framesync config);
    reflexivity.
Qed.

Lemma two_boundaries_skip_labeling_witness :
  let w := Examples.world 10 (fun _ => Ok (Examples.long_track
                                             Examples.beat_grid))
             (fun _ => Ok ([0; 180]%Q, [5%Z])) Examples.no_jams [] in
  let run := run_algorithms w "song.mp3" "gt" (Some "fmc2d")
                            Examples.flat_config in
  trace run =
    [EvGetFeatures "song.mp3" false false; EvReadReferences "song.mp3";
     EvAlignTimes [0; 180]%Q
                  [0; 20; 40; 60; 80; 95; 110; 125; 140; 160; 180]%Q;
     EvProcessSegmentationLevel [0; 10]%nat [0%Z]] /\
  existsb (invokes "msaf.algorithms.fmc2d") (trace run) = false /\
  outcome run = Ok (Flat [0; 180]%Q [0%Z]).
Proof.
  intros w.
  apply (two_boundaries_skip_labeling w "song.mp3" "gt" (Some "fmc2d")
           Examples.flat_config (Examples.long_track Examples.beat_grid)
           None Examples.fmc2d [0; 10]%nat [5%Z]).
  - reflexivity.
  - simpl. lia.
  - reflexivity.
  - reflexivity.
  - reflexivity.
  - discriminate.
  - reflexivity.
  - reflexivity.
Defined.

(* ===================================================================== *)
(** ** The normaliser's guarantees *)
(* ===================================================================== *)

Module NormalizerFacts.
Import Normalizer.

Lemma with_start_nonempty ts : with_start ts <> [].
Proof.
  destruct ts as [| t r]; simpl; [discriminate |].
  destruct (Qeq_bool t 0); discriminate.
Qed.

Lemma with_start_starts ts : starts_at_zero (with_start ts).
Proof.
  destruct ts as [| t r]; simpl; [reflexivity |].
  destruct (Qeq_bool t 0) eqn:E; simpl; [| reflexivity].
  apply Qeq_bool_eq. exact E.
Qed.

Lemma with_end_starts d ts :
  starts_at_zero ts -> starts_at_zero (with_end d ts).
Proof.
  destruct ts as [| t r]; simpl; [contradiction |].
  intros H. destruct (Qeq_bool _ d); exact H.
Qed.

Lemma with_end_ends d ts : ends_at d (with_end d ts).
Proof.
  unfold ends_at, with_end. destruct ts as [| t r].
  - split; [discriminate | simpl; reflexivity].
  - destruct (Qeq_bool (last (t :: r) 0) d) eqn:E.
    + split; [discriminate | apply Qeq_bool_eq; exact E].
    + split; [destruct r; discriminate |].
      rewrite last_last. reflexivity.
Qed.

Lemma fit_labels_length ls ts :
  ts <> [] -> List.length ts = S (List.length (fit_labels ls ts)).
Proof.
  intros Hne. unfold fit_labels.
  assert (0 < List.length ts)%nat by (destruct ts; simpl; [congruence | lia]).
  destruct (Nat.eqb_spec (List.length ls) (List.length ts - 1)) as [E | _].
  - lia.
  - rewrite repeat_length. lia.
Qed.

(** The result of [normalize], whenever it returns, is canonical. *)
Lemma normalize_canonical idxs ls N grid d level :
  normalize idxs ls N grid d = Ok level -> canonical d level.
Proof.
  unfold normalize.
  destruct (to_times grid _) as [ts | e]; [| discriminate].
  intros H. inversion H; subst. unfold canonical. simpl.
  split; [apply with_end_starts, with_start_starts |].
  split; [apply with_end_ends |].
  apply fit_labels_length. apply (proj1 (with_end_ends d (with_start ts))).
Qed.

End NormalizerFacts.

Module Ascending.
Import Normalizer.

Lemma clamp_monotone N l :
  nondecreasing l -> nondecreasing (map (clamp N) l).
Proof.
  unfold nondecreasing. induction 1 as [| x xs Hs IH Hx]; simpl.
  - constructor.
  - constructor; [exact IH |].
    apply Forall_map. revert Hx. apply Forall_impl.
    intros y Hy. unfold clamp. lia.
Qed.

Lemma drop_duplicates_sorted seen l :
  nondecreasing l ->
  StronglySorted lt (drop_duplicates seen l) /\
  Forall (fun y => In y l /\ ~ In y seen) (drop_duplicates seen l).
Proof.
  unfold nondecreasing. intros Hs. revert seen.
  induction Hs as [| x xs Hs IH Hx]; intros seen; simpl.
  - split; constructor.
  - destruct (existsb (Nat.eqb x) seen) eqn:E.
    + destruct (IH seen) as [H1 H2]. split; [exact H1 |].
      revert H2. apply Forall_impl. intros y [Hy Hn]. split; [right |]; auto.
    + destruct (IH (x :: seen)) as [H1 H2]. split.
      * constructor; [exact H1 |].
        rewrite Forall_forall in *. intros y Hy.
        destruct (H2 y Hy) as [Hin Hn]. specialize (Hx y Hin).
        assert (y <> x) by (intros ->; apply Hn; left; reflexivity). lia.
      * constructor.
        -- split; [left; reflexivity |]. intros Hin.
           assert (existsb (Nat.eqb x) seen = true)
             by (apply existsb_exists; exists x; split;
                 [exact Hin | apply Nat.eqb_refl]).
           congruence.
        -- revert H2. apply Forall_impl. intros y [Hy Hn].
           split; [right; exact Hy |]. intros Hin. apply Hn. right. exact Hin.
Qed.

Lemma to_times_lookup grid idxs ts :
  to_times grid idxs = Ok ts ->
  Forall2 (fun i t => nth_error grid i = Some t) idxs ts.
Proof.
  revert ts. induction idxs as [| i rest IH]; intros ts H; simpl in H.
  - inversion H. constructor.
  - destruct (nth_error grid i) as [t |] eqn:E; [| discriminate].
    destruct (to_times grid rest) as [ts' | e]; [| discriminate].
    inversion H; subst. constructor; auto.
Qed.

Lemma sorted_lookup grid :
  strictly_ascending grid ->
  forall i j a b, (i < j)%nat ->
    nth_error grid i = Some a -> nth_error grid j = Some b -> a < b.
Proof.
  unfold strictly_ascending. induction 1 as [| x xs Hs IH Hx];
    intros i j a b Hij Hi Hj.
  - destruct i; discriminate.
  - destruct j as [| j]; [lia |]. simpl in Hj. destruct i as [| i].
    + simpl in Hi. inversion Hi; subst.
      rewrite Forall_forall in Hx. apply Hx.
      apply (nth_error_In _ _ Hj).
    + simpl in Hi. apply (IH i j); [lia | assumption | assumption].
Qed.

Lemma lookups_ascending grid idxs ts :
  strictly_ascending grid -> StronglySorted lt idxs ->
  Forall2 (fun i t => nth_error grid i = Some t) idxs ts ->
  strictly_ascending ts.
Proof.
  intros Hgrid Hs HF. unfold strictly_ascending.
  induction HF as [| i t idxs' ts' Hit HF IH].
  - constructor.
  - inversion Hs as [| ? ? Hs' Hi]; subst. constructor; [auto |].
    clear IH Hs Hs'. induction HF as [| j u idxs'' ts'' Hju HF IH].
    + constructor.
    + inversion Hi; subst. constructor; [| auto].
      apply (sorted_lookup grid Hgrid i j); assumption.
Qed.

Lemma lookups_in_range (P : Q -> Prop) grid idxs ts :
  Forall P grid ->
  Forall2 (fun i t => nth_error grid i = Some t) idxs ts -> Forall P ts.
Proof.
  intros Hgrid HF. induction HF as [| i t idxs' ts' Hit HF IH].
  - constructor.
  - constructor; [| exact IH].
    rewrite Forall_forall in Hgrid. apply Hgrid.
    apply (nth_error_In _ _ Hit).
Qed.

Lemma with_start_ascending ts :
  strictly_ascending ts -> Forall (fun t => 0 <= t) ts ->
  strictly_ascending (with_start ts).
Proof.
  unfold strictly_ascending. intros Hs Hpos.
  destruct ts as [| t r]; simpl; [repeat constructor |].
  destruct (Qeq_bool t 0) eqn:E; [exact Hs |].
  apply Qeq_bool_neq in E.
  inversion Hpos as [| ? ? Ht _]; subst.
  assert (0 < t) by (apply Qle_lteq in Ht; destruct Ht as [Ht | Ht];
                     [exact Ht | elim E; symmetry; exact Ht]).
  constructor; [exact Hs |]. constructor; [assumption |].
  inversion Hs as [| ? ? _ Hr]; subst. revert Hr. apply Forall_impl.
  intros u Hu. apply (Qlt_trans _ t); assumption.
Qed.

Lemma below_the_end d ts :
  strictly_ascending ts -> Forall (fun t => t <= d) ts -> ts <> [] ->
  ~ last ts 0 == d -> Forall (fun t => t < d) ts.
Proof.
  unfold strictly_ascending. intros Hs. induction Hs as [| t r Hs IH Ht];
    intros Hle Hne Hlast; [congruence |].
  inversion Hle as [| ? ? Htd Hrd]; subst.
  destruct r as [| u r'].
  - simpl in Hlast. constructor; [| constructor].
    apply Qle_lteq in Htd. destruct Htd as [H | H]; [exact H | contradiction].
  - assert (Hr : Forall (fun t => t < d) (u :: r'))
      by (apply IH; [assumption | discriminate | exact Hlast]).
    constructor; [| exact Hr].
    inversion Ht; subst. inversion Hr; subst.
    apply (Qlt_trans _ u); assumption.
Qed.

Lemma append_ascending d ts :
  strictly_ascending ts -> Forall (fun t => t < d) ts ->
  strictly_ascending (ts ++ [d]).
Proof.
  unfold strictly_ascending. intros Hs. induction Hs as [| t r Hs IH Ht];
    intros Hlt; simpl.
  - repeat constructor.
  - inversion Hlt; subst. constructor; [auto |].
    apply Forall_app. split; [exact Ht | constructor; [assumption | constructor]].
Qed.

Lemma with_end_ascending d ts :
  strictly_ascending ts -> Forall (fun t => t <= d) ts ->
  strictly_ascending (with_end d ts).
Proof.
  intros Hs Hle. unfold with_end. destruct ts as [| t r].
  - repeat constructor.
  - destruct (Qeq_bool (last (t :: r) 0) d) eqn:E; [exact Hs |].
    apply Qeq_bool_neq in E. apply append_ascending; [exact Hs |].
    apply below_the_end; [assumption | assumption | discriminate | exact E].
Qed.

Lemma with_start_in_range d ts :
  0 <= d -> Forall (fun t => 0 <= t /\ t <= d) ts ->
  Forall (fun t => 0 <= t /\ t <= d) (with_start ts).
Proof.
  intros Hd H. destruct ts as [| t r]; simpl.
  - constructor; [split; [apply Qle_refl | exact Hd] | constructor].
  - destruct (Qeq_bool t 0); [exact H |].
    constructor; [split; [apply Qle_refl | exact Hd] | exact H].
Qed.

(** Ascending indices over an ascending grid inside the track come out as
    strictly ascending times. *)
Lemma normalize_ascending idxs ls N grid d ts ls' :
  nondecreasing idxs -> strictly_ascending grid ->
  Forall (fun t => 0 <= t /\ t <= d) grid -> 0 <= d ->
  normalize idxs ls N grid d = Ok (ts, ls') ->
  strictly_ascending ts.
Proof.
  intros Hidxs Hgrid Hrange Hd. unfold normalize.
  destruct (to_times grid _) as [ts0 | e] eqn:E; [| discriminate].
  intros H. inversion H; subst. apply to_times_lookup in E.
  pose proof (proj1 (drop_duplicates_sorted []
                       _ (clamp_monotone N idxs Hidxs))) as Hsorted.
  pose proof (lookups_ascending grid _ _ Hgrid Hsorted E) as Hts.
  pose proof (lookups_in_range _ grid _ _ Hrange E) as Hin.
  apply with_end_ascending.
  - apply with_start_ascending; [exact Hts |].
    revert Hin. apply Forall_impl. intros t [H0 _]. exact H0.
  - pose proof (with_start_in_range d ts0 Hd Hin) as Hin'.
    revert Hin'. apply Forall_impl. intros t [_ H1]. exact H1.
Qed.

End Ascending.

(* ===================================================================== *)
(** ** The shape of what run_algorithms returns *)
(* ===================================================================== *)

Lemma identify_boundaries_none w audio config bm grid l :
  identify_boundaries w audio config bm grid = (l, Ok None) ->
  bm = None /\ references_failed w audio grid.
Proof.
  unfold identify_boundaries, references_failed.
  destruct bm as [b |]; intros H.
  - apply bind_Ok_inv in H. destruct H as (l1 & r & l2 & _ & H & _).
    inversion H.
  - split; [reflexivity |]. unfold try_except, call in H.
    destruct (read_references w audio) as [[ts ls] | e] eqn:Hr;
      cbn [bind] in H.
    + destruct (align_times w ts (removelast grid)) as [idxs | e] eqn:Ha;
        cbn [bind ret] in H.
      * inversion H.
      * right. exists ts, ls, e. auto.
    + left. exists e. reflexivity.
Qed.

Lemma split_segmentation_none w audio config bm lm grid l :
  split_segmentation w audio config bm lm grid = (l, Ok None) ->
  bm = None /\ references_failed w audio grid.
Proof.
  unfold split_segmentation. intros H.
  apply bind_Ok_inv in H. destruct H as (l1 & b & l2 & Hid & H & _).
  destruct b as [[idxs ls] |].
  - apply bind_Ok_inv in H. destruct H as (l3 & ls' & l4 & _ & H & _).
    inversion H.
  - apply (identify_boundaries_none _ _ _ _ _ _ Hid).
Qed.

Lemma flat_raw_none w audio config bm lm grid l :
  flat_raw w audio config bm lm grid = (l, Ok None) ->
  bm = None /\ references_failed w audio grid.
Proof.
  unfold flat_raw. destruct bm as [b |].
  - destruct lm as [m |].
    + destruct (same_name b m).
      * intros H. apply bind_Ok_inv in H.
        destruct H as (l1 & r & l2 & _ & H & _). inversion H.
      * apply split_segmentation_none.
    + apply split_segmentation_none.
  - apply split_segmentation_none.
Qed.

Lemma hier_levels_shape w rest level labels N grid d l tss lss :
  process_segmentation_level w = Normalizer.normalize ->
  hier_levels w rest level labels N grid d = (l, Ok (tss, lss)) ->
  List.length tss = List.length lss /\
  Forall (canonical d) (combine tss lss) /\
  ((forall idxs ls, In (EvProcessSegmentationLevel idxs ls) l ->
      nondecreasing idxs) ->
   strictly_ascending grid ->
   Forall (fun t => 0 <= t /\ t <= d) grid -> 0 <= d ->
   Forall (fun lv => strictly_ascending (fst lv)) (combine tss lss)).
Proof.
  intros Hpsl. revert level l tss lss.
  induction rest as [| idxs rest IH]; intros level l tss lss H;
    cbn [hier_levels] in H.
  - inversion H; subst. simpl. repeat split; constructor.
  - apply bind_Ok_inv in H. destruct H as (l1 & ls & l2 & _ & H & ->).
    apply bind_Ok_inv in H. destruct H as (l3 & [ts ls'] & l4 & Hn & H & ->).
    apply bind_Ok_inv in H. destruct H as (l5 & [tss' lss'] & l6 & Hr & H & ->).
    inversion H; subst. unfold normalize_level, call in Hn.
    rewrite Hpsl in Hn. inversion Hn as [[Hl Hnorm]].
    destruct (IH _ _ _ _ Hr) as (Hlen & Hcan & Hasc). simpl.
    split; [congruence |]. split.
    + constructor; [| exact Hcan].
      apply (NormalizerFacts.normalize_canonical _ _ _ _ _ _ Hnorm).
    + intros Hlog Hgrid Hrange Hd. constructor.
      * apply (Ascending.normalize_ascending idxs ls N grid d ts ls');
          try assumption.
        apply (Hlog idxs ls). rewrite ?in_app_iff; cbn [In]; rewrite ?in_app_iff; auto 10.
      * apply Hasc; try assumption.
        intros i x Hin. apply (Hlog i x). rewrite ?in_app_iff; cbn [In];
          rewrite ?in_app_iff; auto 10.
Qed.

Lemma segmentation_levels w audio config f boundaries_id bm lm l r :
  process_segmentation_level w = Normalizer.normalize ->
  get_boundaries_module w boundaries_id = Ok bm ->
  segmentation w audio config f bm lm = (l, Ok r) ->
  (r = Flat [] [] /\ boundaries_id = "gt" /\ hier config = false /\
   references_failed w audio (frame_grid w f config)) \/
  (level_counts_agree r /\
   Forall (canonical (dur f)) (levels r) /\
   ((forall idxs ls, In (EvProcessSegmentationLevel idxs ls) l ->
       nondecreasing idxs) ->
    0 < dur f -> strictly_ascending (frame_grid w f config) ->
    Forall (fun t => 0 <= t /\ t <= dur f) (frame_grid w f config) ->
    Forall (fun lv => strictly_ascending (fst lv)) (levels r))).
Proof.
  intros Hpsl Hb H. unfold segmentation in H.
  destruct (hier config) eqn:Hhier.
  - right. destruct bm as [b |]; [| discriminate].
    destruct (match lm with
              | Some lm0 => negb (same_name b lm0)
              | None => false
              end); [discriminate |].
    apply bind_Ok_inv in H. destruct H as (l1 & [idxss lss] & l2 & Hs & H & ->).
    apply bind_Ok_inv in H. destruct H as (l3 & [tss cl] & l4 & Hl & H & ->).
    inversion H; subst.
    destruct (hier_levels_shape _ _ _ _ _ _ _ _ _ _ Hpsl Hl)
      as (Hlen & Hcan & Hasc).
    simpl. split; [exact Hlen |]. split; [exact Hcan |].
    intros Hlog Hdur Hgrid Hrange. apply Hasc; try assumption.
    + intros i x Hin. apply (Hlog i x). rewrite ?in_app_iff; cbn [In];
        rewrite ?in_app_iff; auto 10.
    + apply Qlt_le_weak. exact Hdur.
  - apply bind_Ok_inv in H. destruct H as (l1 & raw & l2 & Hraw & H & ->).
    destruct raw as [[idxs ls] |].
    + right.
      apply bind_Ok_inv in H. destruct H as (l3 & [ts ls'] & l4 & Hn & H & ->).
      inversion H; subst. unfold normalize_level, call in Hn.
      rewrite Hpsl in Hn. inversion Hn as [[Ht Hnorm]].
      simpl. split; [exact I |]. split.
      * constructor; [| constructor].
        apply (NormalizerFacts.normalize_canonical _ _ _ _ _ _ Hnorm).
      * intros Hlog Hdur Hgrid Hrange. constructor; [| constructor]. simpl.
        apply (Ascending.normalize_ascending idxs ls (shape0 (hpcp f))
                 (frame_grid w f config) (dur f) ts ls'); try assumption.
        -- apply (Hlog idxs ls). rewrite ?in_app_iff; cbn [In]; rewrite ?in_app_iff; auto 10.
        -- apply Qlt_le_weak. exact Hdur.
    + left. apply flat_raw_none in Hraw. destruct Hraw as [-> Hfail].
      inversion H; subst.
      split; [reflexivity |]. split; [apply (boundaries_null w _ Hb) |].
      split; [reflexivity | exact Hfail].
Qed.

Lemma adjacent_ascending_sound ts :
  strictly_ascending ts -> adjacent_ascending ts = true.
Proof.
  unfold strictly_ascending. induction 1 as [| t rest Hs IH Ht];
    [reflexivity |].
  cbn [adjacent_ascending]. destruct rest as [| u rest']; [reflexivity |].
  rewrite IH. inversion Ht as [| ? ? Htu _]; subst.
  destruct (Qle_bool u t) eqn:E; [| reflexivity].
  apply Qle_bool_iff in E. elim (Qlt_not_le _ _ Htu E).
Qed.

Lemma not_ascending ts :
  adjacent_ascending ts = false -> ~ strictly_ascending ts.
Proof.
  intros Hf Hs. rewrite (adjacent_ascending_sound ts Hs) in Hf.
  discriminate.
Qed.

(** C1, as stated, fails, in four ways.  Both identifiers resolve, the
    request is flat, no reference exists: the result is the empty pair,
    which does not start at 0.0, does not end at the duration and has no
    label sequence one shorter.  A file without audio gives [0, 0].  With
    the normaliser of the specification, a beat reported twice, or beats
    past the end of the track, or boundary indices handed over from the
    end, give boundary times that are not strictly ascending. *)
Lemma result_invariant_counterexample :
  (let w := Examples.world 10 (fun _ => Ok (Examples.long_track
                                              Examples.inner_grid))
              Examples.no_refs Examples.no_jams [] in
   get_boundaries_module w "gt" = Ok None /\
   get_labels_module w None = Ok None /\
   outcome (run_algorithms w "song.mp3" "gt" None Examples.flat_config) =
     Ok (Flat [] []) /\
   ~ starts_at_zero [] /\ ~ ends_at 180 [] /\
   List.length (@nil Q) <> S (List.length (@nil Z))) /\
  (let w := Irregular.world Irregular.empty_track Examples.no_refs in
   outcome (run_algorithms w "empty.mp3" "foote" None Examples.flat_config) =
     Ok (Flat [0; 0]%Q [0%Z]) /\
   ~ strictly_ascending [0; 0]%Q /\
   ~ 0 < dur Irregular.empty_track) /\
  (let f := Examples.long_track Irregular.repeated_grid in
   let w := Irregular.world f Examples.no_refs in
   outcome (run_algorithms w "song.mp3" "early" None Examples.flat_config) =
     Ok (Flat [0; 20; 20; 170; 180]%Q [0; 0; 0; 0]%Z) /\
   ~ strictly_ascending [0; 20; 20; 170; 180]%Q /\
   ~ strictly_ascending (frame_grid w f Examples.flat_config)) /\
  (let f := Examples.long_track Irregular.late_grid in
   let w := Irregular.world f Examples.no_refs in
   outcome (run_algorithms w "song.mp3" "foote" None Examples.flat_config) =
     Ok (Flat [0; 95; 185; 180]%Q [0; 0; 0]%Z) /\
   ~ strictly_ascending [0; 95; 185; 180]%Q /\
   ~ Forall (fun t => 0 <= t /\ t <= dur f)
            (frame_grid w f Examples.flat_config)) /\
  (let f := Examples.long_track Examples.inner_grid in
   let w := Irregular.world f Examples.no_refs in
   outcome (run_algorithms w "song.mp3" "backwards" None
              Examples.flat_config) =
     Ok (Flat [0; 170; 95; 0; 180]%Q [0; 0; 0; 0]%Z) /\
   ~ strictly_ascending [0; 170; 95; 0; 180]%Q /\
   In (EvProcessSegmentationLevel [10; 5; 0]%nat [-1; -1]%Z)
      (trace (run_algorithms w "song.mp3" "backwards" None
                Examples.flat_config)) /\
   ~ nondecreasing [10; 5; 0]%nat).
Proof.
  split; [| split; [| split; [| split]]].
  - repeat split; try reflexivity.
    + intros H. exact H.
    + intros [H _]. apply H. reflexivity.
    + discriminate.
  - split; [reflexivity |]. split; [apply not_ascending; reflexivity |].
    intros H. discriminate H.
  - split; [reflexivity |].
    split; apply not_ascending; reflexivity.
  - split; [reflexivity |]. split; [apply not_ascending; reflexivity |].
    intros H. rewrite Forall_forall in H.
    destruct (H 185) as [_ Hle]; [simpl; auto 15 |].
    exact (Hle eq_refl).
  - split; [reflexivity |]. split; [apply not_ascending; reflexivity |].
    split; [vm_compute; auto 10 |].
    intros H. inversion H as [| ? ? _ Hall]; subst.
    inversion Hall as [| ? ? Hle _]; subst. lia.
Qed.

(** C1, amended.  With the normaliser of the specification, whatever
    [run_algorithms] returns is either the empty pair, for a flat request
    for ground-truth boundaries when reading or aligning the references
    raised, or a result every level of which starts at 0.0, ends at the
    duration of the track and has one label fewer than boundary times; a
    hierarchical result has as many label levels as boundary levels.  Each
    level is strictly ascending when the call is regular: the duration is
    positive, the frame times are strictly ascending within the track, and
    the boundary indices handed to the normaliser in the call are in
    ascending order. *)
Theorem result_levels_are_canonical
  w audio boundaries_id labels_id config f l r :
  process_segmentation_level w = Normalizer.normalize ->
  get_features w audio (annot_beats config) (framesync config)
               (features config) = Ok f ->
  run_algorithms w audio boundaries_id labels_id config = (l, Ok r) ->
  (r = Flat [] [] /\ boundaries_id = "gt" /\ hier config = false /\
   references_failed w audio (frame_grid w f config)) \/
  (level_counts_agree r /\
   Forall (canonical (dur f)) (levels r) /\
   (regular w f config l ->
    Forall (fun lv => strictly_ascending (fst lv)) (levels r))).
Proof.
  intros Hpsl Hfeat Hrun.
  destruct (Nat.leb_spec (shape0 (hpcp f)) (minimum__frames w)) as [Hle | Hlt].
  - rewrite (run_short w audio boundaries_id labels_id config f Hfeat Hle)
      in Hrun.
    inversion Hrun; subst. right. simpl. split; [exact I |]. split.
    + constructor; [| constructor]. unfold canonical, ends_at. simpl.
      repeat split; try reflexivity. discriminate.
    + intros Hreg. constructor; [| constructor]. simpl.
      constructor; [repeat constructor |].
      constructor; [apply (reg_dur _ _ _ _ Hreg) | constructor].
  - destruct (get_boundaries_module w boundaries_id) as [bm | e] eqn:Hb.
    + destruct (get_labels_module w labels_id) as [lm | e] eqn:Hl.
      * rewrite (run_resolved w audio boundaries_id labels_id config f Hfeat
                   bm lm Hlt Hb Hl) in Hrun.
        inversion Hrun as [[Ht Ho]].
        destruct (segmentation_levels w audio config f boundaries_id bm lm
                    (trace (segmentation w audio config f bm lm)) r Hpsl Hb)
          as [Hempty | (Hcount & Hcan & Hasc)].
        -- rewrite <- Ho. apply M_eta.
        -- left. exact Hempty.
        -- right. split; [exact Hcount |]. split; [exact Hcan |].
           intros Hreg. apply Hasc.
           ++ intros idxs ls Hin. apply (reg_indices _ _ _ _ Hreg idxs ls).
              right. apply in_or_app. right. exact Hin.
           ++ apply (reg_dur _ _ _ _ Hreg).
           ++ apply (reg_grid_sorted _ _ _ _ Hreg).
           ++ apply (reg_grid_range _ _ _ _ Hreg).
      * rewrite (run_labels_error w audio boundaries_id labels_id config f
                   Hfeat bm e Hlt Hb Hl) in Hrun. discriminate.
    + rewrite (run_boundaries_error w audio boundaries_id labels_id config f
                 Hfeat e Hlt Hb) in Hrun. discriminate.
Qed.

(** The ground-truth request on the 180 second track with beats inside it
    is a regular call. *)
Lemma example_call_regular :
  regular
    (Examples.world 10 (fun _ => Ok (Examples.long_track Examples.inner_grid))
       Examples.refs_180 Examples.no_jams [])
    (Examples.long_track Examples.inner_grid) Examples.flat_config
    [EvGetFeatures "song.mp3" false false;
     EvReadReferences "song.mp3";
     EvAlignTimes [0; 40; 95; 180]%Q
       [0; 20; 40; 60; 80; 95; 110; 125; 140; 160; 170]%Q;
     EvProcessSegmentationLevel [0; 2; 5; 10]%nat [1; 2; 1]%Z].
Proof.
  constructor.
  - reflexivity.
  - unfold strictly_ascending. simpl.
    repeat (constructor; [| repeat (constructor; [reflexivity |]);
                            constructor]).
    constructor.
  - simpl. repeat (constructor; [split; discriminate |]). constructor.
  - intros idxs ls [H | [H | [H | [H | []]]]]; try discriminate H.
    inversion H; subst. unfold nondecreasing.
    repeat (constructor; [| repeat (constructor; [lia |]); constructor]).
    constructor.
Qed.

Lemma result_levels_are_canonical_witness :
  canonical 180 ([0; 40; 95; 170; 180]%Q, [0; 0; 0; 0]%Z) /\
  strictly_ascending [0; 40; 95; 170; 180]%Q.
Proof.
  destruct (result_levels_are_canonical
              (Examples.world 10
                 (fun _ => Ok (Examples.long_track Examples.inner_grid))
                 Examples.refs_180 Examples.no_jams [])
              "song.mp3" "gt" None Examples.flat_config
              (Examples.long_track Examples.inner_grid)
              [EvGetFeatures "song.mp3" false false;
               EvReadReferences "song.mp3";
               EvAlignTimes [0; 40; 95; 180]%Q
                 [0; 20; 40; 60; 80; 95; 110; 125; 140; 160; 170]%Q;
               EvProcessSegmentationLevel [0; 2; 5; 10]%nat [1; 2; 1]%Z]
              (Flat [0; 40; 95; 170; 180]%Q [0; 0; 0; 0]%Z)
              eq_refl eq_refl eq_refl)
    as [[Hempty _] | (_ & Hcan & Hasc)].
  - discriminate Hempty.
  - split.
    + exact (Forall_inv Hcan).
    + exact (Forall_inv (Hasc example_call_regular)).
Defined.

(* ===================================================================== *)
(** ** Ground-truth boundaries without labelling *)
(* ===================================================================== *)


(** C7.  The 180 second track whose reference has boundaries at
    [0, 40, 95, 180] and section labels [1, 2, 1], asked for ground-truth
    boundaries and no labelling: the boundary times come back as in the
    claim, the labels are those of the reference and not [-1, -1, -1]. *)
Theorem ground_truth_keeps_reference_labels :
  run_algorithms
    (Examples.world 10 (fun _ => Ok (Examples.long_track Examples.beat_grid))
       Examples.refs_180 Examples.no_jams [])
    "song.mp3" "gt" None Examples.flat_config =
  ([EvGetFeatures "song.mp3" false false; EvReadReferences "song.mp3";
    EvAlignTimes [0; 40; 95; 180]%Q
                 [0; 20; 40; 60; 80; 95; 110; 125; 140; 160; 180]%Q;
    EvProcessSegmentationLevel [0; 2; 5; 10]%nat [1; 2; 1]%Z],
   Ok (Flat [0; 40; 95; 180]%Q [1; 2; 1]%Z)).
Proof. reflexivity. Qed.

(* ===================================================================== *)
(** ** Further properties: resolution *)
(* ===================================================================== *)

(** X1.  [get_boundaries_module] returns a module exactly for an identifier
    other than ["gt"] that is registered with the boundary flag, and returns
    null exactly for ["gt"], registered or not. *)
Theorem boundaries_module_characterised (w : World) (id : string) :
  (forall m, get_boundaries_module w id = Ok (Some m) <->
             id <> "gt" /\ algorithms w id = Some m /\
             is_boundary_type m = true) /\
  (get_boundaries_module w id = Ok None <-> id = "gt").
Proof.
  split.
  - intros m. split.
    + apply boundaries_resolved.
    + intros (Hne & Hm & Hty). apply boundaries_capable; assumption.
  - split.
    + apply boundaries_null.
    + intros ->. reflexivity.
Qed.

Lemma boundaries_module_characterised_witness :
  let w := MoreExamples.world MoreExamples.nearest_align Examples.refs_180
             Examples.no_jams [] in
  algorithms w "gt" = Some Examples.scluster /\
  get_boundaries_module w "gt" = Ok None /\
  get_boundaries_module w "scluster" = Ok (Some Examples.scluster).
Proof.
  intros w. split; [reflexivity |]. split.
  - apply (proj2 (boundaries_module_characterised w "gt")). reflexivity.
  - apply (proj1 (boundaries_module_characterised w "scluster")).
    split; [discriminate | split; reflexivity].
Defined.

(** X2.  [get_labels_module] returns a module exactly for an identifier
    that is registered with the label flag, and null exactly for no
    identifier.  No string is a sentinel here: ["gt"] is looked up in the
    catalogue like any other identifier. *)
Theorem labels_module_characterised (w : World) (labels_id : option string) :
  (forall m, get_labels_module w labels_id = Ok (Some m) <->
             exists id, labels_id = Some id /\ algorithms w id = Some m /\
                        is_label_type m = true) /\
  (get_labels_module w labels_id = Ok None <-> labels_id = None).
Proof.
  split.
  - intros m. split.
    + apply labels_resolved.
    + intros (id & -> & Hm & Hty). apply labels_capable; assumption.
  - split.
    + apply labels_null.
    + intros ->. reflexivity.
Qed.

Lemma labels_module_characterised_witness :
  let w := MoreExamples.world MoreExamples.nearest_align Examples.refs_180
             Examples.no_jams [] in
  get_labels_module w (Some "gt") = Ok (Some Examples.scluster) /\
  get_labels_module w None = Ok None.
Proof.
  intros w. split.
  - apply (proj1 (labels_module_characterised w (Some "gt"))).
    exists "gt". split; [reflexivity | split; reflexivity].
  - apply (proj2 (labels_module_characterised w None)). reflexivity.
Defined.

(* ===================================================================== *)
(** ** Further properties: what run_algorithms calls *)
(* ===================================================================== *)

Lemma forallb_bind {A B} (P : event -> bool) (m : M A) (f : A -> M B) :
  forallb P (trace m) = true ->
  (forall l a, m = (l, Ok a) -> forallb P (trace (f a)) = true) ->
  forallb P (trace (bind m f)) = true.
Proof.
  destruct m as [l [a | e]]; simpl; intros Hm Hf; [| exact Hm].
  specialize (Hf l a eq_refl). destruct (f a) as [l' r]. simpl in *.
  rewrite forallb_app, Hm, Hf. reflexivity.
Qed.

Lemma forallb_try_except {A} (P : event -> bool) (m h : M A) :
  forallb P (trace m) = true -> forallb P (trace h) = true ->
  forallb P (trace (try_except m h)) = true.
Proof.
  destruct m as [l [a | e]]; simpl; intros Hm Hh; [exact Hm |].
  destruct h as [l' r]. simpl in *. rewrite forallb_app, Hm, Hh. reflexivity.
Qed.

Lemma existsb_forallb (P : event -> bool) (l : list event) :
  forallb (fun e => negb (P e)) l = true -> existsb P l = false.
Proof.
  induction l as [| e l IH]; simpl; [reflexivity |].
  intros H. apply andb_prop in H. destruct H as [He Hl].
  rewrite (IH Hl). destruct (P e); [discriminate | reflexivity].
Qed.

Ltac trace_steps :=
  repeat first
    [ progress lazy beta iota
    | reflexivity
    | assumption
    | apply forallb_try_except
    | apply forallb_bind; [| intros ? ? ?]
    | match goal with
      | |- forallb _ (trace (match ?x with _ => _ end)) = true => destruct x
      | |- forallb _ (trace (if ?x then _ else _)) = true => destruct x
      end ].

Lemma hier_levels_events (P : event -> bool) w rest level labels N grid d :
  (forall idxs ls, P (EvProcessSegmentationLevel idxs ls) = true) ->
  forallb P (trace (hier_levels w rest level labels N grid d)) = true.
Proof.
  intros HP. revert level.
  induction rest as [| idxs rest IH]; intros level; cbn [hier_levels].
  - reflexivity.
  - apply forallb_bind; [destruct (nth_error labels level); reflexivity |].
    intros l ls _. apply forallb_bind.
    + unfold normalize_level, call. simpl. rewrite HP. reflexivity.
    + intros l' [ts ls'] _. apply forallb_bind; [apply IH |].
      intros l'' [tss cl] _. reflexivity.
Qed.

(** The three ways a call of [run_algorithms] can go: it stops on the
    features or on a configuration error, it takes the short-circuit, or it
    resolves both modules and segments. *)
Lemma run_cases w audio boundaries_id labels_id config :
  (exists e, run_algorithms w audio boundaries_id labels_id config =
             ([features_event audio config], Raise e)) \/
  (exists f,
     run_algorithms w audio boundaries_id labels_id config =
       ([features_event audio config; EvWarning Msg.too_short],
        Ok (Flat [0%Q; dur f] [0%Z]))) \/
  (exists f bm lm,
     get_boundaries_module w boundaries_id = Ok bm /\
     get_labels_module w labels_id = Ok lm /\
     run_algorithms w audio boundaries_id labels_id config =
       (features_event audio config :: grid_events config
          ++ trace (segmentation w audio config f bm lm),
        outcome (segmentation w audio config f bm lm))).
Proof.
  destruct (get_features w audio (annot_beats config) (framesync config)
              (features config)) as [f | e] eqn:Hfeat.
  - destruct (Nat.leb_spec (shape0 (hpcp f)) (minimum__frames w))
      as [Hle | Hlt].
    + right. left. exists f. apply run_short; assumption.
    + destruct (get_boundaries_module w boundaries_id) as [bm | e] eqn:Hb.
      * destruct (get_labels_module w labels_id) as [lm | e] eqn:Hl.
        -- right. right. exists f, bm, lm.
           split; [reflexivity |]. split; [reflexivity |].
           apply run_resolved; assumption.
        -- left. exists e. apply (run_labels_error _ _ _ _ _ f Hfeat bm);
             assumption.
      * left. exists e. apply (run_boundaries_error _ _ _ _ _ f Hfeat);
          assumption.
  - left. exists e. unfold run_algorithms. rewrite Hfeat. reflexivity.
Qed.

Lemma segmentation_events w audio config f bm lm :
  forallb orchestration_event (trace (segmentation w audio config f bm lm))
  = true.
Proof.
  unfold segmentation. destruct (hier config).
  - destruct bm as [b |]; [| reflexivity].
    destruct (match lm with
              | Some lm0 => negb (same_name b lm0)
              | None => false
              end); [reflexivity |].
    apply forallb_bind.
    + unfold segment_hierarchical. trace_steps.
    + intros l [idxss lss] _. apply forallb_bind.
      * apply hier_levels_events. reflexivity.
      * intros l' [tss cl] _. reflexivity.
  - unfold flat_raw, split_segmentation, identify_boundaries, label_segments,
      segment_flat, normalize_level.
    trace_steps.
Qed.

Lemma run_trace_orchestration w audio boundaries_id labels_id config :
  forallb orchestration_event
    (trace (run_algorithms w audio boundaries_id labels_id config)) = true.
Proof.
  destruct (run_cases w audio boundaries_id labels_id config)
    as [[e ->] | [[f ->] | (f & bm & lm & _ & _ & ->)]];
    [reflexivity | reflexivity |].
  cbn [trace fst forallb features_event orchestration_event andb].
  rewrite forallb_app, segmentation_events.
  unfold grid_events. destruct (framesync config); reflexivity.
Qed.

(** X3.  Whatever its arguments and whatever its collaborators answer,
    [run_algorithms] only loads features, logs warnings, asks for the frame
    times, calls algorithms, reads and aligns references and normalises: it
    never saves an estimation, loads a JAMS file, extracts features, lists a
    dataset, sonifies or plots. *)
Theorem run_algorithms_calls w audio boundaries_id labels_id config :
  forallb orchestration_event
    (trace (run_algorithms w audio boundaries_id labels_id config)) = true.
Proof. apply run_trace_orchestration. Qed.

Lemma segmentation_with_module_reads_no_reference w audio config f b lm :
  forallb (fun e => negb (reference_event e))
    (trace (segmentation w audio config f (Some b) lm)) = true.
Proof.
  unfold segmentation. destruct (hier config).
  - destruct (match lm with
              | Some lm0 => negb (same_name b lm0)
              | None => false
              end); [reflexivity |].
    apply forallb_bind.
    + unfold segment_hierarchical. trace_steps.
    + intros l [idxss lss] _. apply forallb_bind.
      * apply hier_levels_events. reflexivity.
      * intros l' [tss cl] _. reflexivity.
  - unfold flat_raw, split_segmentation, identify_boundaries, label_segments,
      segment_flat, normalize_level.
    trace_steps.
Qed.

Lemma hierarchical_segmentation_events w audio config f bm lm :
  hier config = true ->
  forallb (fun e => negb (reference_event e || flat_entry e))
    (trace (segmentation w audio config f bm lm)) = true.
Proof.
  intros Hhier. unfold segmentation. rewrite Hhier.
  destruct bm as [b |]; [| reflexivity].
  destruct (match lm with
            | Some lm0 => negb (same_name b lm0)
            | None => false
            end); [reflexivity |].
  apply forallb_bind.
  - unfold segment_hierarchical. trace_steps.
  - intros l [idxss lss] _. apply forallb_bind.
    + apply hier_levels_events. reflexivity.
    + intros l' [tss cl] _. reflexivity.
Qed.

Lemma flat_segmentation_events w audio config f bm lm :
  hier config = false ->
  forallb (fun e => negb (hierarchical_entry e))
    (trace (segmentation w audio config f bm lm)) = true.
Proof.
  intros Hhier. unfold segmentation. rewrite Hhier.
  unfold flat_raw, split_segmentation, identify_boundaries, label_segments,
    segment_flat, normalize_level.
  trace_steps.
Qed.

Lemma forallb_weaken (P Q : event -> bool) (l : list event) :
  (forall e, P e = true -> Q e = true) ->
  forallb P l = true -> forallb Q l = true.
Proof.
  intros HPQ. induction l as [| e l IH]; simpl; [reflexivity |].
  intros H. apply andb_prop in H. destruct H as [He Hl].
  rewrite (HPQ e He), (IH Hl). reflexivity.
Qed.

(** X4.  The reference annotation is read and aligned only for a flat
    request with the ["gt"] sentinel: with any other boundary identifier,
    or in hierarchical mode, [run_algorithms] never calls
    [io.read_references] nor [io.align_times]. *)
Theorem references_only_for_flat_ground_truth
  w audio boundaries_id labels_id config :
  boundaries_id <> "gt" \/ hier config = true ->
  existsb reference_event
    (trace (run_algorithms w audio boundaries_id labels_id config)) = false.
Proof.
  intros Hcase. apply existsb_forallb.
  destruct (run_cases w audio boundaries_id labels_id config)
    as [[e ->] | [[f ->] | (f & bm & lm & Hb & _ & ->)]];
    [reflexivity | reflexivity |].
  cbn [trace fst forallb features_event reference_event negb andb].
  rewrite forallb_app.
  replace (forallb (fun e => negb (reference_event e)) (grid_events config))
    with true by (unfold grid_events; destruct (framesync config);
                  reflexivity).
  destruct Hcase as [Hne | Hhier].
  - destruct bm as [b |].
    + apply segmentation_with_module_reads_no_reference.
    + elim Hne. apply (boundaries_null w _ Hb).
  - apply (forallb_weaken
             (fun e => negb (reference_event e || flat_entry e))).
    + intros e0. lazy beta.
      destruct (reference_event e0); [discriminate | reflexivity].
    + apply hierarchical_segmentation_events. exact Hhier.
Qed.

Lemma references_only_for_flat_ground_truth_witness :
  let w := Examples.world 10 (fun _ => Ok (Examples.long_track
                                             Examples.beat_grid))
             Examples.refs_180 Examples.no_jams [] in
  existsb reference_event
    (trace (run_algorithms w "song.mp3" "foote" (Some "fmc2d")
                           Examples.flat_config)) = false /\
  existsb reference_event
    (trace (run_algorithms w "song.mp3" "gt" None Examples.hier_config))
    = false.
Proof.
  intros w. split.
  - apply references_only_for_flat_ground_truth. left. discriminate.
  - apply references_only_for_flat_ground_truth. right. reflexivity.
Defined.

(** X5.  The entry point follows the mode: a flat request never calls
    [processHierarchical], a hierarchical request never calls
    [processFlat]. *)
Theorem entry_points_follow_mode w audio boundaries_id labels_id config :
  (hier config = false ->
   existsb hierarchical_entry
     (trace (run_algorithms w audio boundaries_id labels_id config))
   = false) /\
  (hier config = true ->
   existsb flat_entry
     (trace (run_algorithms w audio boundaries_id labels_id config))
   = false).
Proof.
  split; intros Hhier; apply existsb_forallb;
    (destruct (run_cases w audio boundaries_id labels_id config)
      as [[e ->] | [[f ->] | (f & bm & lm & _ & _ & ->)]];
     [reflexivity | reflexivity |]);
    cbn [trace fst forallb features_event hierarchical_entry flat_entry
         negb andb];
    rewrite forallb_app.
  - rewrite (flat_segmentation_events w audio config f bm lm Hhier).
    unfold grid_events. destruct (framesync config); reflexivity.
  - rewrite (forallb_weaken
               (fun e => negb (reference_event e || flat_entry e))
               (fun e => negb (flat_entry e)) _
               ltac:(intros e0; lazy beta;
                     destruct (reference_event e0), (flat_entry e0);
                     simpl; congruence)
               (hierarchical_segmentation_events w audio config f bm lm
                  Hhier)).
    unfold grid_events. destruct (framesync config); reflexivity.
Qed.

Lemma entry_points_follow_mode_witness :
  let w := Examples.world 10 (fun _ => Ok (Examples.long_track
                                             Examples.beat_grid))
             Examples.refs_180 Examples.no_jams [] in
  existsb hierarchical_entry
    (trace (run_algorithms w "song.mp3" "scluster" (Some "scluster")
                           Examples.flat_config)) = false /\
  existsb flat_entry
    (trace (run_algorithms w "song.mp3" "scluster" (Some "scluster")
                           Examples.hier_config)) = false.
Proof.
  intros w. split.
  - apply (proj1 (entry_points_follow_mode w "song.mp3" "scluster"
                    (Some "scluster") Examples.flat_config)). reflexivity.
  - apply (proj2 (entry_points_follow_mode w "song.mp3" "scluster"
                    (Some "scluster") Examples.hier_config)). reflexivity.
Defined.

(* ===================================================================== *)
(** ** Further properties: the paths of the flat branch *)
(* ===================================================================== *)

Lemma flat_finish w audio config f bm lm l idxs ls :
  hier config = false ->
  flat_raw w audio config bm lm (frame_grid w f config) =
    (l, Ok (Some (idxs, ls))) ->
  segmentation w audio config f bm lm =
  (l ++ [EvProcessSegmentationLevel idxs ls], normalised w f config idxs ls).
Proof.
  intros Hhier Hraw. unfold segmentation. rewrite Hhier.
  erewrite bind_Ok by exact Hraw.
  unfold normalize_level, call, normalised.
  destruct (process_segmentation_level w idxs ls (shape0 (hpcp f))
              (frame_grid w f config) (dur f)) as [[ts ls'] | e];
    cbn [bind ret trace outcome fst snd]; rewrite ?app_nil_r; reflexivity.
Qed.

Lemma flat_abort w audio config f bm lm l e :
  hier config = false ->
  flat_raw w audio config bm lm (frame_grid w f config) = (l, Raise e) ->
  segmentation w audio config f bm lm = (l, Raise e).
Proof.
  intros Hhier Hraw. unfold segmentation. rewrite Hhier, Hraw. reflexivity.
Qed.

Lemma segment_flat_eq m args :
  segment_flat m args =
  ([EvSegmenter (mod_name m) args; EvProcessFlat (mod_name m)],
   processFlat m args).
Proof.
  unfold segment_flat, emit, call. cbn [bind app].
  destruct (processFlat m args); reflexivity.
Qed.

(** X6.  A flat request whose two identifiers resolve to modules of the same
    name: the flat entry point of the boundary module is called once, with
    the frame times and neither boundaries nor labels to start from; the
    indices and the labels it returns go to the normaliser as they are, and
    an exception it raises leaves [run_algorithms] before any
    normalisation. *)
Theorem same_algorithm_runs_once
  w audio boundaries_id labels_id config f bm lm :
  get_features w audio (annot_beats config) (framesync config)
               (features config) = Ok f ->
  (minimum__frames w < shape0 (hpcp f))%nat ->
  hier config = false ->
  get_boundaries_module w boundaries_id = Ok (Some bm) ->
  get_labels_module w labels_id = Ok (Some lm) ->
  mod_name bm = mod_name lm ->
  let args :=
    mkSegArgs audio (Some (frame_grid w f config)) None None config in
  run_algorithms w audio boundaries_id labels_id config =
  (features_event audio config :: grid_events config
     ++ EvSegmenter (mod_name bm) args :: EvProcessFlat (mod_name bm)
     :: match processFlat bm args with
        | Ok (idxs, ls) => [EvProcessSegmentationLevel idxs ls]
        | Raise _ => []
        end,
   match processFlat bm args with
   | Ok (idxs, ls) => normalised w f config idxs ls
   | Raise e => Raise e
   end).
Proof.
  intros Hfeat Hlt Hhier Hb Hl Hname args.
  rewrite (run_resolved w audio boundaries_id labels_id config f Hfeat
             (Some bm) (Some lm) Hlt Hb Hl).
  assert (Hraw : flat_raw w audio config (Some bm) (Some lm)
                   (frame_grid w f config) =
                 ([EvSegmenter (mod_name bm) args;
                   EvProcessFlat (mod_name bm)],
                  match processFlat bm args with
                  | Ok r => Ok (Some r)
                  | Raise e => Raise e
                  end)).
  { unfold flat_raw, same_name.
    destruct (String.eqb_spec (mod_name bm) (mod_name lm)); [| contradiction].
    rewrite segment_flat_eq. fold args.
    destruct (processFlat bm args); reflexivity. }
  destruct (processFlat bm args) as [[idxs ls] | e].
  - rewrite (flat_finish _ _ _ _ _ _ _ _ _ Hhier Hraw). reflexivity.
  - rewrite (flat_abort _ _ _ _ _ _ _ _ Hhier Hraw). reflexivity.
Qed.

Lemma same_algorithm_runs_once_witness :
  let w := Examples.world 10 (fun _ => Ok (Examples.long_track
                                             Examples.inner_grid))
             Examples.refs_180 Examples.no_jams [] in
  outcome (run_algorithms w "song.mp3" "scluster" (Some "scluster")
                          Examples.flat_config) =
  Ok (Flat [0; 170; 180]%Q [0; 0]%Z).
Proof.
  intros w.
  rewrite (same_algorithm_runs_once w "song.mp3" "scluster" (Some "scluster")
             Examples.flat_config (Examples.long_track Examples.inner_grid)
             Examples.scluster Examples.scluster).
  - reflexivity.
  - reflexivity.
  - simpl. lia.
  - reflexivity.
  - reflexivity.
  - reflexivity.
  - reflexivity.
Defined.

Lemma split_raw w audio config bm lm grid :
  (forall b m, bm = Some b -> lm = Some m -> mod_name b <> mod_name m) ->
  flat_raw w audio config bm lm grid =
  split_segmentation w audio config bm lm grid.
Proof.
  intros Hne. unfold flat_raw. destruct bm as [b |]; [| reflexivity].
  destruct lm as [m |]; [| reflexivity]. unfold same_name.
  destruct (String.eqb_spec (mod_name b) (mod_name m)) as [E | _];
    [elim (Hne b m eq_refl eq_refl E) | reflexivity].
Qed.

(** X7.  A flat request whose label algorithm is not the boundary
    algorithm, once the boundary step has yielded a number of indices other
    than two: the label algorithm is called once, with these indices to
    start from and without frame times.  The labels it returns go to the
    normaliser together with the indices of the boundary step: the indices
    the label algorithm returns and the labels of the boundary step are
    dropped.  An exception it raises leaves [run_algorithms], also when the
    boundaries are the ground truth. *)
Theorem label_algorithm_keeps_boundaries
  w audio boundaries_id labels_id config f bm lm est_idxs est_labels :
  get_features w audio (annot_beats config) (framesync config)
               (features config) = Ok f ->
  (minimum__frames w < shape0 (hpcp f))%nat ->
  hier config = false ->
  get_boundaries_module w boundaries_id = Ok bm ->
  get_labels_module w labels_id = Ok (Some lm) ->
  (forall b, bm = Some b -> mod_name b <> mod_name lm) ->
  outcome (identify_boundaries w audio config bm (frame_grid w f config)) =
    Ok (Some (est_idxs, est_labels)) ->
  List.length est_idxs <> 2%nat ->
  let args := mkSegArgs audio None (Some est_idxs) None config in
  run_algorithms w audio boundaries_id labels_id config =
  (features_event audio config :: grid_events config
     ++ trace (identify_boundaries w audio config bm (frame_grid w f config))
     ++ EvSegmenter (mod_name lm) args :: EvProcessFlat (mod_name lm)
     :: match processFlat lm args with
        | Ok (_, ls) => [EvProcessSegmentationLevel est_idxs ls]
        | Raise _ => []
        end,
   match processFlat lm args with
   | Ok (_, ls) => normalised w f config est_idxs ls
   | Raise e => Raise e
   end).
Proof.
  intros Hfeat Hlt Hhier Hb Hl Hne Hid Hlen args.
  rewrite (run_resolved w audio boundaries_id labels_id config f Hfeat
             bm (Some lm) Hlt Hb Hl).
  assert (Hraw : flat_raw w audio config bm (Some lm) (frame_grid w f config)
                 = (trace (identify_boundaries w audio config bm
                             (frame_grid w f config))
                      ++ [EvSegmenter (mod_name lm) args;
                          EvProcessFlat (mod_name lm)],
                    match processFlat lm args with
                    | Ok (_, ls) => Ok (Some (est_idxs, ls))
                    | Raise e => Raise e
                    end)).
  { rewrite split_raw
      by (intros b m Hbm Hm; inversion Hm; subst; apply (Hne b eq_refl)).
    unfold split_segmentation.
    erewrite bind_Ok
      by (rewrite (M_eta (identify_boundaries _ _ _ _ _)), Hid; reflexivity).
    unfold label_segments.
    destruct (Nat.eqb_spec (List.length est_idxs) 2) as [E | _];
      [contradiction |].
    rewrite segment_flat_eq. fold args.
    destruct (processFlat lm args) as [[idxs' ls] | e];
      cbn [bind ret trace outcome fst snd]; rewrite ?app_nil_r; reflexivity. }
  destruct (processFlat lm args) as [[idxs' ls] | e].
  - rewrite (flat_finish _ _ _ _ _ _ _ _ _ Hhier Hraw).
    cbn [trace outcome fst snd]. rewrite <- !app_assoc. reflexivity.
  - rewrite (flat_abort _ _ _ _ _ _ _ _ Hhier Hraw).
    cbn [trace outcome fst snd]. reflexivity.
Qed.

Lemma label_algorithm_keeps_boundaries_witness :
  let w := MoreExamples.world MoreExamples.nearest_align Examples.refs_180
             Examples.no_jams [] in
  run_algorithms w "song.mp3" "foote" (Some "relabel") Examples.flat_config =
  ([EvGetFeatures "song.mp3" false false;
    EvSegmenter "msaf.algorithms.foote"
      (mkSegArgs "song.mp3" (Some Examples.inner_grid) None (Some [])
                 Examples.flat_config);
    EvProcessFlat "msaf.algorithms.foote";
    EvSegmenter "msaf.algorithms.relabel"
      (mkSegArgs "song.mp3" None (Some [0; 5; 10]%nat) None
                 Examples.flat_config);
    EvProcessFlat "msaf.algorithms.relabel";
    EvProcessSegmentationLevel [0; 5; 10]%nat [4; 5]%Z],
   Ok (Flat [0; 95; 170; 180]%Q [0; 0; 0]%Z)).
Proof.
  intros w.
  apply (label_algorithm_keeps_boundaries w "song.mp3" "foote"
           (Some "relabel") Examples.flat_config
           (Examples.long_track Examples.inner_grid)
           (Some Examples.foote) MoreExamples.relabel
           [0; 5; 10]%nat [-1; -1]%Z).
  - reflexivity.
  - simpl. lia.
  - reflexivity.
  - reflexivity.
  - reflexivity.
  - intros b Hb. inversion Hb; subst. discriminate.
  - reflexivity.
  - discriminate.
Defined.

(** X8.  The bare [except] around the references also covers their
    alignment: when the references are read and [io.align_times] raises, a
    flat ground-truth request logs the same "No references found" warning
    and returns the same empty pair as when no reference exists. *)
Theorem alignment_failure_reported_as_missing_references
  w audio labels_id config f lm ts ls e :
  get_features w audio (annot_beats config) (framesync config)
               (features config) = Ok f ->
  (minimum__frames w < shape0 (hpcp f))%nat ->
  hier config = false ->
  get_labels_module w labels_id = Ok lm ->
  read_references w audio = Ok (ts, ls) ->
  align_times w ts (removelast (frame_grid w f config)) = Raise e ->
  run_algorithms w audio "gt" labels_id config =
  (features_event audio config :: grid_events config
     ++ [EvReadReferences audio;
         EvAlignTimes ts (removelast (frame_grid w f config));
         EvWarning (Msg.no_references audio)],
   Ok (Flat [] [])).
Proof.
  intros Hfeat Hlt Hhier Hl Hr Ha.
  rewrite (run_resolved w audio "gt" labels_id config f Hfeat None lm
             Hlt (boundaries_gt w) Hl).
  unfold segmentation. rewrite Hhier.
  unfold flat_raw, split_segmentation, identify_boundaries.
  rewrite Hr. unfold call. cbn [bind]. rewrite Ha. reflexivity.
Qed.

Lemma alignment_failure_reported_as_missing_references_witness :
  let w := MoreExamples.world MoreExamples.failing_align Examples.refs_180
             Examples.no_jams [] in
  outcome (run_algorithms w "song.mp3" "gt" None Examples.flat_config) =
  Ok (Flat [] []).
Proof.
  intros w.
  rewrite (alignment_failure_reported_as_missing_references w "song.mp3" None
             Examples.flat_config (Examples.long_track Examples.inner_grid)
             None [0; 40; 95; 180]%Q [1; 2; 1]%Z
             (CollaboratorError "ValueError")).
  - reflexivity.
  - reflexivity.
  - simpl. lia.
  - reflexivity.
  - reflexivity.
  - reflexivity.
  - reflexivity.
Defined.



(* ===================================================================== *)
(** ** Further properties: the levels of a hierarchical result *)
(* ===================================================================== *)

Lemma hier_levels_counts w rest level labels N grid d l tss cl :
  (level <= List.length labels)%nat ->
  hier_levels w rest level labels N grid d = (l, Ok (tss, cl)) ->
  List.length tss = List.length rest /\
  List.length cl = List.length rest /\
  (level + List.length rest <= List.length labels)%nat.
Proof.
  revert level l tss cl.
  induction rest as [| idxs rest IH]; intros level l tss cl Hle H;
    cbn [hier_levels] in H.
  - inversion H; subst. simpl. repeat split. lia.
  - apply bind_Ok_inv in H. destruct H as (l1 & ls & l2 & Hnth & H & _).
    apply bind_Ok_inv in H. destruct H as (l3 & [ts ls'] & l4 & _ & H & _).
    apply bind_Ok_inv in H. destruct H as (l5 & [tss' cl'] & l6 & Hr & H & _).
    inversion H; subst. unfold lift in Hnth.
    destruct (nth_error labels level) as [x |] eqn:E; [| discriminate].
    assert (level < List.length labels)%nat
      by (apply nth_error_Some; congruence).
    destruct (IH (S level) _ _ _ ltac:(lia) Hr) as (H1 & H2 & H3).
    simpl. repeat split; lia.
Qed.

Lemma hier_levels_runs_out w rest level labels N grid d :
  (level <= List.length labels)%nat ->
  (List.length labels < level + List.length rest)%nat ->
  (forall idxs ls, In idxs rest -> In ls labels ->
     exists r, process_segmentation_level w idxs ls N grid d = Ok r) ->
  outcome (hier_levels w rest level labels N grid d) = Raise IndexError.
Proof.
  revert level.
  induction rest as [| idxs rest IH]; intros level Hle Hlt Hnorm;
    cbn [hier_levels].
  - simpl in Hlt. lia.
  - destruct (nth_error labels level) as [ls |] eqn:E; [| reflexivity].
    assert (Hlevel : (level < List.length labels)%nat)
      by (apply nth_error_Some; congruence).
    destruct (Hnorm idxs ls (or_introl eq_refl) (nth_error_In _ _ E))
      as [[ts ls'] Hr].
    unfold lift. cbn [bind]. unfold normalize_level, call. rewrite Hr.
    cbn [bind].
    assert (HIH : outcome (hier_levels w rest (S level) labels N grid d)
                  = Raise IndexError).
    { apply IH; [lia | simpl in Hlt; lia |].
      intros i l Hi Hl. apply Hnorm; [right; exact Hi | exact Hl]. }
    destruct (hier_levels w rest (S level) labels N grid d) as [t [r | e]];
      simpl in HIH; [discriminate |].
    inversion HIH; subst. reflexivity.
Qed.

(** X10.  A hierarchical request that reaches the hierarchical entry point:
    the loop over the levels takes the labels of each level by its index.
    A result, when there is one, has exactly one level of times and one of
    labels per level of boundary indices, and the entry point returned at
    least as many levels of labels; the levels of labels beyond are
    ignored.  With fewer levels of labels than of indices, and a normaliser
    that answers, the call ends in an IndexError. *)
Theorem hierarchical_levels
  w audio boundaries_id labels_id config f b lm idxss lss :
  get_features w audio (annot_beats config) (framesync config)
               (features config) = Ok f ->
  (minimum__frames w < shape0 (hpcp f))%nat ->
  hier config = true ->
  get_boundaries_module w boundaries_id = Ok (Some b) ->
  get_labels_module w labels_id = Ok lm ->
  (forall m, lm = Some m -> mod_name b = mod_name m) ->
  processHierarchical b
    (mkSegArgs audio (Some (frame_grid w f config)) None None config) =
    Ok (idxss, lss) ->
  (forall l r,
     run_algorithms w audio boundaries_id labels_id config = (l, Ok r) ->
     exists tss cl,
       r = Hierarchical tss cl /\
       List.length tss = List.length idxss /\
       List.length cl = List.length idxss /\
       (List.length idxss <= List.length lss)%nat) /\
  ((List.length lss < List.length idxss)%nat ->
   (forall idxs ls, In idxs idxss -> In ls lss ->
      exists r, process_segmentation_level w idxs ls (shape0 (hpcp f))
                  (frame_grid w f config) (dur f) = Ok r) ->
   outcome (run_algorithms w audio boundaries_id labels_id config) =
     Raise IndexError).
Proof.
  intros Hfeat Hlt Hhier Hb Hl Hsame Hp.
  rewrite (run_resolved w audio boundaries_id labels_id config f Hfeat
             (Some b) lm Hlt Hb Hl).
  assert (Hout : outcome (segmentation w audio config f (Some b) lm) =
    match outcome (hier_levels w idxss 0 lss (shape0 (hpcp f))
                     (frame_grid w f config) (dur f)) with
    | Ok (tss, cl) => Ok (Hierarchical tss cl)
    | Raise e => Raise e
    end).
  { unfold segmentation. rewrite Hhier.
    assert (Hc : match lm with
                 | Some lm0 => negb (same_name b lm0)
                 | None => false
                 end = false).
    { destruct lm as [m |]; [| reflexivity]. unfold same_name.
      rewrite (Hsame m eq_refl), String.eqb_refl. reflexivity. }
    rewrite Hc. unfold segment_hierarchical, emit, call. cbn [bind].
    rewrite Hp.
    destruct (hier_levels w idxss 0 lss (shape0 (hpcp f))
                (frame_grid w f config) (dur f)) as [t [[tss cl] | e]];
      reflexivity. }
  split.
  - intros l r Hrun. inversion Hrun as [[Ht Ho]]. rewrite Hout in Ho.
    destruct (hier_levels w idxss 0 lss (shape0 (hpcp f))
                (frame_grid w f config) (dur f)) as [t [[tss cl] | e]] eqn:E;
      simpl in Ho; [| discriminate].
    inversion Ho; subst. exists tss, cl.
    destruct (hier_levels_counts _ _ _ _ _ _ _ _ _ _ (Nat.le_0_l _) E)
      as (H1 & H2 & H3).
    repeat split; [exact H1 | exact H2 | simpl in H3; exact H3].
  - intros Hshort Hnorm. cbn [outcome snd]. rewrite Hout.
    rewrite hier_levels_runs_out; [reflexivity | lia | simpl; lia | exact Hnorm].
Qed.

Lemma hierarchical_levels_witness :
  let w := MoreExamples.world MoreExamples.nearest_align Examples.refs_180
             Examples.no_jams [] in
  outcome (run_algorithms w "song.mp3" "uneven" None Examples.hier_config) =
  Raise IndexError.
Proof.
  intros w.
  apply (proj2 (hierarchical_levels w "song.mp3" "uneven" None
                  Examples.hier_config
                  (Examples.long_track Examples.inner_grid)
                  MoreExamples.uneven None
                  [[0; 10]; [0; 5; 10]]%nat [[0]]%Z
                  eq_refl ltac:(simpl; lia) eq_refl eq_refl eq_refl
                  ltac:(discriminate) eq_refl)).
  - simpl. lia.
  - intros idxs ls [<- | [<- | []]] [<- | []]; eexists; reflexivity.
Defined.

(* ===================================================================== *)
(** ** Further properties: process_track *)
(* ===================================================================== *)

(** The three ways the beat check of [process_track] can go. *)
Lemma process_track_cases w fs boundaries_id labels_id config :
  (exists e,
     annot_beats config = true /\
     jams2_load w (ref_file fs) = Raise e /\
     process_track w fs boundaries_id labels_id config =
       ([EvJamsLoad (ref_file fs)], Raise e)) \/
  (exists jam,
     annot_beats config = true /\
     jams2_load w (ref_file fs) = Ok jam /\
     match jam_beats jam with
     | [] => True
     | layer :: _ => data layer = []
     end /\
     process_track w fs boundaries_id labels_id config =
       ([EvJamsLoad (ref_file fs); EvWarning (Msg.no_beats (ref_file fs))],
        Ok None)) \/
  (beat_check_passes w fs config /\
   process_track w fs boundaries_id labels_id config =
     (beat_check_log fs config
        ++ trace (track_body w fs boundaries_id labels_id config),
      outcome (track_body w fs boundaries_id labels_id config))).
Proof.
  assert (Hbody : forall l,
            (let (l', r) := track_body w fs boundaries_id labels_id config in
             (l ++ l', r)) =
            (l ++ trace (track_body w fs boundaries_id labels_id config),
             outcome (track_body w fs boundaries_id labels_id config)))
    by (intros l; destruct (track_body w fs boundaries_id labels_id config);
        reflexivity).
  destruct (annot_beats config) eqn:Hab.
  - destruct (jams2_load w (ref_file fs)) as [jam | e] eqn:Hjam.
    + destruct (jam_beats jam) as [| layer rest] eqn:Hbeats.
      * right. left. exists jam.
        split; [reflexivity |]. split; [reflexivity |].
        rewrite Hbeats. split; [exact I |].
        unfold process_track. rewrite Hab, Hjam. unfold call. cbn [bind].
        rewrite Hbeats. reflexivity.
      * destruct (data layer) as [| x xs] eqn:Hdata.
        -- right. left. exists jam.
           split; [reflexivity |]. split; [reflexivity |].
           rewrite Hbeats. split; [exact Hdata |].
           unfold process_track. rewrite Hab, Hjam. unfold call. cbn [bind].
           rewrite Hbeats. cbn [nth_error]. rewrite Hdata. reflexivity.
        -- right. right. split.
           ++ intros _. exists jam, layer, rest.
              split; [exact Hjam |]. split; [exact Hbeats |].
              rewrite Hdata. discriminate.
           ++ unfold process_track, beat_check_log. rewrite Hab, Hjam.
              unfold call at 1. cbn [bind]. rewrite Hbeats.
              cbn [nth_error]. rewrite Hdata.
              cbn [List.length Nat.ltb Nat.leb andb].
              unfold ret at 1. cbn [bind negb app].
              apply (Hbody [EvJamsLoad (ref_file fs)]).
    + left. exists e. split; [reflexivity |]. split; [reflexivity |].
      unfold process_track. rewrite Hab, Hjam. reflexivity.
  - right. right. split.
    + intros H. congruence.
    + unfold process_track, beat_check_log. rewrite Hab.
      unfold ret at 1. cbn [bind negb].
      apply (Hbody []).
Qed.

Lemma track_body_eq w fs boundaries_id labels_id config :
  let run := run_algorithms w (audio_file fs) boundaries_id labels_id config in
  let info := EvInfo (Msg.segmenting (audio_file fs)) in
  track_body w fs boundaries_id labels_id config =
  match (if isfile w (features_file fs) then Ok tt
         else compute_all_features w fs) with
  | Raise e => (info :: extraction_log w fs, Raise e)
  | Ok _ =>
      match outcome run with
      | Raise e => (info :: extraction_log w fs ++ trace run, Raise e)
      | Ok est =>
          (info :: extraction_log w fs ++ trace run
             ++ [EvInfo (Msg.writing (est_file fs));
                 EvSaveEstimations (est_file fs) est boundaries_id labels_id],
           match save_estimations w (est_file fs) est boundaries_id
                                  labels_id config with
           | Ok _ => Ok (Some est)
           | Raise e => Raise e
           end)
      end
  end.
Proof.
  intros run info. unfold track_body, extraction_log. fold run.
  unfold emit at 1. cbn [bind].
  destruct (isfile w (features_file fs)); cbn [negb].
  - unfold ret at 1. cbn [bind app].
    destruct run as [lr [est | e]]; cbn [bind outcome trace fst snd app];
      [| reflexivity].
    unfold emit, call. cbn [bind].
    destruct (save_estimations w (est_file fs) est boundaries_id labels_id
                config) as [[] | e];
      cbn [bind ret app]; rewrite ?app_nil_r; reflexivity.
  - unfold call at 1.
    destruct (compute_all_features w fs) as [[] | e]; cbn [bind app];
      [| reflexivity].
    destruct run as [lr [est | e]]; cbn [bind outcome trace fst snd app];
      [| reflexivity].
    unfold emit, call. cbn [bind].
    destruct (save_estimations w (est_file fs) est boundaries_id labels_id
                config) as [[] | e];
      cbn [bind ret app]; rewrite ?app_nil_r; reflexivity.
Qed.

Lemma process_track_passes w fs boundaries_id labels_id config :
  beat_check_passes w fs config ->
  process_track w fs boundaries_id labels_id config =
  (beat_check_log fs config
     ++ trace (track_body w fs boundaries_id labels_id config),
   outcome (track_body w fs boundaries_id labels_id config)).
Proof.
  intros Hpass.
  destruct (process_track_cases w fs boundaries_id labels_id config)
    as [(e & Hab & Hjam & _) | [(jam & Hab & Hjam & Hempty & _) | [_ H]]];
    [| | exact H].
  - destruct (Hpass Hab) as (jam & layer & rest & Hjam' & _). congruence.
  - destruct (Hpass Hab) as (jam' & layer & rest & Hjam' & Hbeats & Hdata).
    assert (jam' = jam) by congruence. subst jam'.
    rewrite Hbeats in Hempty. contradiction.
Qed.

(** X11.  The beat check of [process_track] looks at the first beat layer of
    the reference file only.  When there is no layer, or the first one
    holds no datum, the track is skipped, whatever the other layers hold;
    when the first layer holds a datum the track is processed. *)
Theorem beat_check_reads_first_layer
  w fs boundaries_id labels_id config jam :
  annot_beats config = true ->
  jams2_load w (ref_file fs) = Ok jam ->
  (match jam_beats jam with
   | [] => True
   | layer :: _ => data layer = []
   end ->
   process_track w fs boundaries_id labels_id config =
     ([EvJamsLoad (ref_file fs); EvWarning (Msg.no_beats (ref_file fs))],
      Ok None)) /\
  (forall layer rest,
     jam_beats jam = layer :: rest -> data layer <> [] ->
     process_track w fs boundaries_id labels_id config =
       (EvJamsLoad (ref_file fs)
          :: trace (track_body w fs boundaries_id labels_id config),
        outcome (track_body w fs boundaries_id labels_id config))).
Proof.
  intros Hab Hjam. split.
  - intros Hempty.
    destruct (process_track_cases w fs boundaries_id labels_id config)
      as [(e & _ & Hjam' & _) | [(jam' & _ & _ & _ & H) | [Hpass _]]].
    + congruence.
    + exact H.
    + destruct (Hpass Hab) as (jam' & layer & rest & Hjam' & Hbeats & Hdata).
      assert (jam' = jam) by congruence. subst jam'.
      rewrite Hbeats in Hempty. contradiction.
  - intros layer rest Hbeats Hdata.
    rewrite process_track_passes.
    + unfold beat_check_log. rewrite Hab. reflexivity.
    + intros _. exists jam, layer, rest. auto.
Qed.

Lemma beat_check_reads_first_layer_witness :
  let w := MoreExamples.world MoreExamples.nearest_align Examples.refs_180
             MoreExamples.jams_second_layer [] in
  process_track w (Examples.paths "song.mp3") "gt" None
                Examples.beats_config =
  ([EvJamsLoad "song.mp3.jams";
    EvWarning "No beat information in file song.mp3.jams"], Ok None).
Proof.
  intros w.
  apply (proj1 (beat_check_reads_first_layer w (Examples.paths "song.mp3")
                  "gt" None Examples.beats_config
                  (mkJam [mkBeatLayer []; mkBeatLayer [0; 1; 2]%Q])
                  eq_refl eq_refl)).
  reflexivity.
Defined.

(** X12.  When the beat check lets the track through, the features are
    there or their extraction succeeds, [run_algorithms] returns and the
    estimation is saved, [process_track] returns what it saved: the
    estimation of [run_algorithms], written to the estimation file of the
    track under the two identifiers of the request.  The extraction is
    triggered exactly when the features file is missing. *)
Theorem process_track_returns_what_it_saves
  w fs boundaries_id labels_id config l est :
  beat_check_passes w fs config ->
  (isfile w (features_file fs) = false ->
   compute_all_features w fs = Ok tt) ->
  run_algorithms w (audio_file fs) boundaries_id labels_id config =
    (l, Ok est) ->
  save_estimations w (est_file fs) est boundaries_id labels_id config =
    Ok tt ->
  process_track w fs boundaries_id labels_id config =
  (beat_check_log fs config
     ++ EvInfo (Msg.segmenting (audio_file fs))
     :: extraction_log w fs ++ l
     ++ [EvInfo (Msg.writing (est_file fs));
         EvSaveEstimations (est_file fs) est boundaries_id labels_id],
   Ok (Some est)).
Proof.
  intros Hpass Hext Hrun Hsave.
  rewrite (process_track_passes _ _ _ _ _ Hpass), track_body_eq.
  assert (Hx : (if isfile w (features_file fs) then Ok tt
                else compute_all_features w fs) = Ok tt)
    by (destruct (isfile w (features_file fs)); auto).
  rewrite Hx, Hrun. cbn [outcome trace fst snd]. rewrite Hsave.
  reflexivity.
Qed.

Lemma process_track_returns_what_it_saves_witness :
  let w := Examples.world 10 (fun _ => Ok (Examples.long_track
                                             Examples.beat_grid))
             Examples.no_refs Examples.jams_of [] in
  process_track w (Examples.paths "song.mp3") "gt" None
                Examples.beats_config =
  ([EvJamsLoad "song.mp3.jams"; EvInfo "Segmenting song.mp3";
    EvGetFeatures "song.mp3" true false; EvReadReferences "song.mp3";
    EvWarning "No references found for file: song.mp3";
    EvInfo "Writing results in: song.mp3.estimation.json";
    EvSaveEstimations "song.mp3.estimation.json" (Flat [] []) "gt" None],
   Ok (Some (Flat [] []))).
Proof.
  intros w.
  apply (process_track_returns_what_it_saves w (Examples.paths "song.mp3")
           "gt" None Examples.beats_config
           [EvGetFeatures "song.mp3" true false; EvReadReferences "song.mp3";
            EvWarning "No references found for file: song.mp3"]
           (Flat [] [])).
  - intros _. exists (mkJam [mkBeatLayer [0; 1; 2]%Q]),
      (mkBeatLayer [0; 1; 2]%Q), [].
    split; [reflexivity |]. split; [reflexivity | discriminate].
  - intros H. discriminate H.
  - reflexivity.
  - reflexivity.
Defined.

Lemma not_in_orchestration_trace w audio boundaries_id labels_id config e :
  orchestration_event e = false ->
  ~ In e (trace (run_algorithms w audio boundaries_id labels_id config)).
Proof.
  intros He Hin.
  pose proof (run_trace_orchestration w audio boundaries_id labels_id config)
    as H.
  rewrite forallb_forall in H. rewrite (H e Hin) in He. discriminate.
Qed.

(** X13.  [process_track] saves nothing it has not computed: whenever its
    log holds a call to [io.save_estimations], [run_algorithms] has
    returned on the audio file of the track, and the call saves that very
    estimation to the estimation file of the track, under the boundary and
    label identifiers of the request.  A track whose beat check, feature
    extraction or segmentation fails leaves no estimation behind. *)
Theorem saved_estimation_is_the_computed_one
  w fs boundaries_id labels_id config path est bid lid :
  In (EvSaveEstimations path est bid lid)
     (trace (process_track w fs boundaries_id labels_id config)) ->
  path = est_file fs /\ bid = boundaries_id /\ lid = labels_id /\
  outcome (run_algorithms w (audio_file fs) boundaries_id labels_id config) =
    Ok est.
Proof.
  intros Hin.
  destruct (process_track_cases w fs boundaries_id labels_id config)
    as [(e & _ & _ & H) | [(jam & _ & _ & _ & H) | [_ H]]];
    rewrite H in Hin; cbn [trace fst] in Hin.
  - destruct Hin as [Hin | []]. discriminate Hin.
  - destruct Hin as [Hin | [Hin | []]]; discriminate Hin.
  - apply in_app_or in Hin. destruct Hin as [Hin | Hin].
    { unfold beat_check_log in Hin. destruct (annot_beats config);
        [destruct Hin as [Hin | []]; discriminate Hin | destruct Hin]. }
    rewrite track_body_eq in Hin.
    assert (Hlog : ~ In (EvSaveEstimations path est bid lid)
                     (extraction_log w fs)).
    { unfold extraction_log. destruct (isfile w (features_file fs));
        [intros [] | intros [Hx | []]; discriminate Hx]. }
    pose proof (not_in_orchestration_trace w (audio_file fs) boundaries_id
                  labels_id config (EvSaveEstimations path est bid lid)
                  eq_refl) as Hrun.
    destruct (if isfile w (features_file fs) then Ok tt
              else compute_all_features w fs) as [[] | e].
    + destruct (outcome (run_algorithms w (audio_file fs) boundaries_id
                           labels_id config)) as [est' | e] eqn:Hout;
        cbn [trace fst] in Hin.
      * destruct Hin as [Hin | Hin]; [discriminate Hin |].
        apply in_app_or in Hin. destruct Hin as [Hin | Hin];
          [contradiction |].
        apply in_app_or in Hin. destruct Hin as [Hin | Hin];
          [contradiction |].
        destruct Hin as [Hin | [Hin | []]]; [discriminate Hin |].
        inversion Hin; subst. auto.
      * destruct Hin as [Hin | Hin]; [discriminate Hin |].
        apply in_app_or in Hin. destruct Hin as [Hin | Hin]; contradiction.
    + cbn [trace fst] in Hin.
      destruct Hin as [Hin | Hin]; [discriminate Hin | contradiction].
Qed.

Lemma saved_estimation_is_the_computed_one_witness :
  let w := Examples.world 10 (fun _ => Ok (Examples.long_track
                                             Examples.beat_grid))
             Examples.refs_180 Examples.jams_of [] in
  outcome (run_algorithms w "song.mp3" "gt" None Examples.flat_config) =
  Ok (Flat [0; 40; 95; 180]%Q [1; 2; 1]%Z).
Proof.
  intros w.
  apply (saved_estimation_is_the_computed_one w (Examples.paths "song.mp3")
           "gt" None Examples.flat_config "song.mp3.estimation.json"
           (Flat [0; 40; 95; 180]%Q [1; 2; 1]%Z) "gt" None).
  simpl. do 6 right. left. reflexivity.
Defined.

(* ===================================================================== *)
(** ** Further properties: process *)
(* ===================================================================== *)

Lemma Parallel_all_Ok {A} n (jobs : list (M A)) rs :
  Forall2 (fun job r => outcome job = Ok r) jobs rs ->
  outcome (Parallel n jobs) = Ok rs.
Proof.
  induction 1 as [| job r jobs rs Hjob _ IH]; [reflexivity |].
  cbn [Parallel]. rewrite (M_eta job), Hjob.
  erewrite bind_Ok by reflexivity. cbn [outcome snd].
  rewrite (M_eta (Parallel n jobs)), IH. reflexivity.
Qed.

Lemma Forall2_map_left {A B C} (R : B -> C -> Prop) (g : A -> B) l rs :
  Forall2 R (map g l) rs <-> Forall2 (fun a r => R (g a) r) l rs.
Proof.
  revert rs. induction l as [| a l IH]; intros rs; simpl; split; intros H;
    inversion H; subst; constructor; auto; apply IH; assumption.
Qed.

(** X14.  In collection mode the batch returns exactly when every track
    does, and what it returns is the list of what [process_track] returned
    for each track, in the order in which the dataset lists the tracks. *)
Theorem collection_results_follow_tracks
  w in_path feature ds_name annot_beats_ framesync_ boundaries_id labels_id
  hier_ sonify_bounds plot n_jobs cfg out_bounds config files :
  isfile w in_path = false ->
  effective_config w cfg feature annot_beats_ framesync_ boundaries_id
                   labels_id hier_ = Ok config ->
  get_dataset_files w in_path ds_name = Ok files ->
  forall results,
    outcome (process w in_path annot_beats_ feature ds_name framesync_
                     boundaries_id labels_id hier_ sonify_bounds plot n_jobs
                     cfg out_bounds) = Ok (Collection results) <->
    Forall2 (fun fs r =>
               outcome (process_track w fs boundaries_id labels_id config)
               = Ok r)
            files results.
Proof.
  intros Hdir Hconfig Hfiles results.
  rewrite (process_collection w in_path feature ds_name annot_beats_
             framesync_ boundaries_id labels_id hier_ sonify_bounds plot
             n_jobs cfg out_bounds config files Hdir Hconfig Hfiles).
  cbn [outcome snd]. split.
  - destruct (Parallel n_jobs _) as [t [rs | e]] eqn:E; cbn [snd];
      [| discriminate].
    intros H. inversion H; subst.
    apply (proj1 (Forall2_map_left (fun job r => outcome job = Ok r)
                    (fun fs => process_track w fs boundaries_id labels_id
                                             config) files results)).
    apply (proj1 (Parallel_Ok_inv _ _ _ _ E)).
  - intros H.
    apply (proj2 (Forall2_map_left (fun job r => outcome job = Ok r)
                    (fun fs => process_track w fs boundaries_id labels_id
                                             config) files results)) in H.
    apply (Parallel_all_Ok n_jobs) in H.
    rewrite H. reflexivity.
Qed.

Lemma collection_results_follow_tracks_witness :
  let w := Examples.world 10 Examples.feats_of Examples.refs_180
             Examples.jams_of ["a.mp3"; "nobeats.mp3"] in
  outcome (process w "dataset" true "mfcc" "*" false "gt" None false false
                   false 4 None "out_bounds.wav") =
  Ok (Collection [Some (Flat [0; 40; 95; 180]%Q [1; 2; 1]%Z); None]).
Proof.
  intros w.
  apply (proj2 (collection_results_follow_tracks w "dataset" "mfcc" "*" true
                  false "gt" None false false false 4 None "out_bounds.wav"
                  (mkConfig true false None false [])
                  [Examples.paths "a.mp3"; Examples.paths "nobeats.mp3"]
                  eq_refl eq_refl eq_refl _)).
  repeat constructor.
Defined.

(** X15.  In collection mode with a configuration passed in, the arguments
    [annot_beats], [feature], [framesync], [hier], [sonify_bounds], [plot]
    and [out_bounds] of [process] have no effect: the tracks are processed
    with the configuration as it is, its ["hier"] key included. *)
Theorem collection_with_config_ignores_arguments
  w in_path ds_name boundaries_id labels_id n_jobs config
  annot_beats1 feature1 framesync1 hier1 sonify1 plot1 out1
  annot_beats2 feature2 framesync2 hier2 sonify2 plot2 out2 :
  isfile w in_path = false ->
  process w in_path annot_beats1 feature1 ds_name framesync1 boundaries_id
          labels_id hier1 sonify1 plot1 n_jobs (Some config) out1 =
  process w in_path annot_beats2 feature2 ds_name framesync2 boundaries_id
          labels_id hier2 sonify2 plot2 n_jobs (Some config) out2.
Proof.
  intros Hdir. unfold process. rewrite Hdir. reflexivity.
Qed.

Lemma collection_with_config_ignores_arguments_witness :
  let w := Examples.world 10 Examples.feats_of Examples.refs_180
             Examples.jams_of ["a.mp3"] in
  process w "dataset" false "mfcc" "*" false "scluster" (Some "scluster")
          true true true 4 (Some Examples.flat_config) "out_bounds.wav" =
  process w "dataset" false "mfcc" "*" false "scluster" (Some "scluster")
          false false false 4 (Some Examples.flat_config) "out_bounds.wav".
Proof.
  intros w. apply collection_with_config_ignores_arguments. reflexivity.
Defined.

Ltac trace_steps_using H :=
  repeat first
    [ progress lazy beta iota
    | apply H
    | reflexivity
    | apply forallb_try_except
    | apply forallb_bind; [| intros ? ? ?]
    | match goal with
      | |- forallb _ (trace (match ?x with _ => _ end)) = true => destruct x
      | |- forallb _ (trace (if ?x then _ else _)) = true => destruct x
      end ].

Lemma run_trace_kind (P : event -> bool) :
  (forall e, orchestration_event e = true -> P e = true) ->
  forall w audio boundaries_id labels_id config,
    forallb P (trace (run_algorithms w audio boundaries_id labels_id config))
    = true.
Proof.
  intros HP w audio boundaries_id labels_id config.
  apply (forallb_weaken orchestration_event P _ HP).
  apply run_trace_orchestration.
Qed.

Lemma process_track_events w fs boundaries_id labels_id config :
  forallb track_event
    (trace (process_track w fs boundaries_id labels_id config)) = true.
Proof.
  pose proof (run_trace_kind track_event
                ltac:(intros e He; destruct e; simpl in *;
                      congruence)) as Hrun.
  unfold process_track. trace_steps_using (Hrun w).
Qed.

Lemma Parallel_events {A} (P : event -> bool) n (jobs : list (M A)) :
  Forall (fun job => forallb P (trace job) = true) jobs ->
  forallb P (trace (Parallel n jobs)) = true.
Proof.
  induction 1 as [| job jobs Hjob _ IH]; [reflexivity |].
  cbn [Parallel]. apply forallb_bind; [exact Hjob |].
  intros l a _. apply forallb_bind; [exact IH |].
  intros l' rest _. reflexivity.
Qed.

(** X16.  Single file mode saves nothing: when the input path is a file,
    [process] never calls [io.save_estimations], and it neither lists a
    dataset, loads a JAMS file nor runs the per-track feature extraction.
    The estimation only comes back as the value of the call. *)
Theorem single_file_mode_saves_nothing
  w in_path annot_beats_ feature ds_name framesync_ boundaries_id labels_id
  hier_ sonify_bounds plot n_jobs cfg out_bounds :
  isfile w in_path = true ->
  existsb collection_event
    (trace (process w in_path annot_beats_ feature ds_name framesync_
                    boundaries_id labels_id hier_ sonify_bounds plot n_jobs
                    cfg out_bounds)) = false.
Proof.
  intros Hfile. apply existsb_forallb.
  pose proof (run_trace_kind (fun e => negb (collection_event e))
                ltac:(intros e He; destruct e; simpl in *;
                      congruence)) as Hrun.
  unfold process. rewrite Hfile. trace_steps_using (Hrun w).
Qed.

Lemma single_file_mode_saves_nothing_witness :
  let w := Examples.world 10 (fun _ => Ok (Examples.long_track
                                             Examples.beat_grid))
             Examples.refs_180 Examples.no_jams [] in
  existsb collection_event
    (trace (process w "song.mp3" false "mfcc" "*" false "gt" None false true
                    true 4 None "out_bounds.wav")) = false.
Proof.
  intros w. apply single_file_mode_saves_nothing. reflexivity.
Defined.

(** X17.  Collection mode neither sonifies nor plots: when the input path
    is not a file, [process] never calls [librosa.load],
    [utils.sonify_clicks], [plotting.plot_one_track] nor
    [featextract.compute_features_for_audio_file], whatever
    [sonify_bounds] and [plot] are. *)
Theorem collection_mode_never_sonifies_nor_plots
  w in_path annot_beats_ feature ds_name framesync_ boundaries_id labels_id
  hier_ sonify_bounds plot n_jobs cfg out_bounds :
  isfile w in_path = false ->
  existsb single_file_event
    (trace (process w in_path annot_beats_ feature ds_name framesync_
                    boundaries_id labels_id hier_ sonify_bounds plot n_jobs
                    cfg out_bounds)) = false.
Proof.
  intros Hdir. apply existsb_forallb.
  assert (Htrack : forall fs config,
            forallb (fun e => negb (single_file_event e))
              (trace (process_track w fs boundaries_id labels_id config))
            = true).
  { intros fs config. apply (forallb_weaken track_event).
    - intros e He. destruct e; simpl in *; congruence.
    - apply process_track_events. }
  unfold process. rewrite Hdir.
  apply forallb_bind; [reflexivity |]. intros l [] _.
  apply forallb_bind.
  - destruct cfg as [c |]; [reflexivity |].
    apply forallb_bind; [reflexivity |]. intros l' c _. reflexivity.
  - intros l' config _. apply forallb_bind; [reflexivity |].
    intros l'' files _. apply forallb_bind.
    + apply Parallel_events. apply Forall_map. apply Forall_forall.
      intros fs _. apply Htrack.
    + intros l3 results _. reflexivity.
Qed.

Lemma collection_mode_never_sonifies_nor_plots_witness :
  let w := Examples.world 10 Examples.feats_of Examples.refs_180
             Examples.jams_of ["a.mp3"; "c.mp3"] in
  existsb single_file_event
    (trace (process w "dataset" false "mfcc" "*" false "gt" None false true
                    true 4 None "out_bounds.wav")) = false.
Proof.
  intros w. apply collection_mode_never_sonifies_nor_plots. reflexivity.
Defined.

(** X18.  What single file mode returns: the configuration is the one
    passed in or the one [io.get_configuration] builds; the features are
    loaded when the features file exists and computed from the audio
    otherwise; [run_algorithms] is then called on the input path with these
    features under the ["features"] key and with the [hier] argument under
    the ["hier"] key of the configuration, whatever the key held before;
    its estimation is the value of the call.  Sonifying and plotting do not
    change it. *)
Theorem single_file_result
  w in_path annot_beats_ feature ds_name framesync_ boundaries_id labels_id
  hier_ sonify_bounds plot n_jobs cfg out_bounds r :
  isfile w in_path = true ->
  outcome (process w in_path annot_beats_ feature ds_name framesync_
                   boundaries_id labels_id hier_ sonify_bounds plot n_jobs
                   cfg out_bounds) = Ok r ->
  exists config feats est,
    effective_config w cfg feature annot_beats_ framesync_ boundaries_id
                     labels_id hier_ = Ok config /\
    (if path_exists w (features_file (new_FileStruct w in_path))
     then get_features w in_path annot_beats_ framesync_ None
     else compute_features_for_audio_file w in_path) = Ok feats /\
    outcome (run_algorithms w in_path boundaries_id labels_id
               (set_hier (set_features config (Some feats)) hier_)) = Ok est /\
    r = SingleFile est.
Proof.
  intros Hfile Hout.
  pose proof (M_eta (process w in_path annot_beats_ feature ds_name
                       framesync_ boundaries_id labels_id hier_ sonify_bounds
                       plot n_jobs cfg out_bounds)) as H.
  rewrite Hout in H. unfold process in H. rewrite Hfile in H.
  apply bind_Ok_inv in H. destruct H as (l1 & [] & l2 & _ & H & _).
  apply bind_Ok_inv in H. destruct H as (l3 & config & l4 & Hc & H & _).
  apply bind_Ok_inv in H. destruct H as (l5 & feats & l6 & Hf & H & _).
  apply bind_Ok_inv in H. destruct H as (l7 & est & l8 & Hrun & H & _).
  apply bind_Ok_inv in H. destruct H as (l9 & [] & l10 & _ & H & _).
  apply bind_Ok_inv in H. destruct H as (l11 & [] & l12 & _ & H & _).
  inversion H; subst. exists config, feats, est.
  split; [| split; [| split; [| reflexivity]]].
  - unfold effective_config. destruct cfg as [c |].
    + inversion Hc. reflexivity.
    + apply bind_Ok_inv in Hc.
      destruct Hc as (la & c & lb & Hg & Hc & _).
      unfold call in Hg. inversion Hg as [[Hl Hg']]. rewrite Hg'.
      inversion Hc. reflexivity.
  - destruct (path_exists w (features_file (new_FileStruct w in_path)));
      unfold call in Hf; inversion Hf; reflexivity.
  - rewrite Hrun. reflexivity.
Qed.

Lemma single_file_result_witness :
  let w := Examples.world 10 (fun _ => Ok (Examples.long_track
                                             Examples.beat_grid))
             Examples.refs_180 Examples.no_jams [] in
  exists config feats est,
    effective_config w (Some Examples.flat_config) "mfcc" false false
                     "scluster" (Some "scluster") true = Ok config /\
    (if path_exists w (features_file (new_FileStruct w "song.mp3"))
     then get_features w "song.mp3" false false None
     else compute_features_for_audio_file w "song.mp3") = Ok feats /\
    outcome (run_algorithms w "song.mp3" "scluster" (Some "scluster")
               (set_hier (set_features config (Some feats)) true)) = Ok est /\
    Hierarchical [[0; 180]; [0; 95; 180]]%Q [[0]; [0; 1]]%Z = est.
Proof.
  intros w.
  destruct (single_file_result w "song.mp3" false "mfcc" "*" false "scluster"
              (Some "scluster") true true true 4 (Some Examples.flat_config)
              "out_bounds.wav"
              (SingleFile (Hierarchical [[0; 180]; [0; 95; 180]]%Q
                                        [[0]; [0; 1]]%Z))
              eq_refl eq_refl)
    as (config & feats & est & Hc & Hf & Hrun & Hr).
  exists config, feats, est.
  split; [exact Hc |]. split; [exact Hf |]. split; [exact Hrun |].
  inversion Hr. reflexivity.
Defined.


